(** * medichat: citation extraction and answer formatting (src/web_app.py)

    A shallow embedding of the response-normalisation core of the web
    application: the two citation extractors
    [_extract_document_titles_from_citations] and
    [_extract_pdf_filenames_from_citations], and the formatter
    [_format_one_line_bullets], [_remove_bold_markdown], [_finalize_output].

    Python values are embedded as the inductive type [pyval]: the values a
    decoded JSON response is made of, floating-point numbers apart.  A Python
    [str] is a list of Unicode code points.  A [dict] is the list of its
    entries in insertion order, since iterating it yields its keys in that
    order and its keys are arbitrary values.  Code that can raise lives in
    the error monad [result]; the lists the loops append to are threaded
    explicitly, so that what was appended before an exception survives the
    [except] clause exactly as in the source.  [os.path] is the one of a
    POSIX system.

    The three endpoints are embedded as functions of the configuration and
    of the two AWS clients, which are parameters: a client returns a decoded
    response or raises.  Exceptions are those derived from [Exception];
    logging, routing and the validation of the request are left to the
    framework and are not part of the model. *)

From Stdlib Require Import String Ascii List NArith ZArith Bool Lia.
Import ListNotations.

Set Implicit Arguments.
Set Warnings "-register-all".

(* ================================================================== *)
(** ** Python strings *)
(* ================================================================== *)

(** A [str] is a sequence of code points. *)
Definition pystr := list N.

(** A literal of the source, code point by code point. *)
Definition py (s : string) : pystr := map N_of_ascii (list_ascii_of_string s).

Definition LF : N := 10%N.          (* "\n" *)
Definition SP : N := 32%N.          (* " " *)
Definition STAR : N := 42%N.        (* "*" *)
Definition HYPHEN : N := 45%N.      (* "-" *)
Definition SLASH : N := 47%N.       (* "/" *)
Definition QMARK : N := 63%N.       (* "?" *)
Definition PSEP : N := 8233%N.      (* U+2029, paragraph separator *)
Definition LSEP : N := 8232%N.      (* U+2028, line separator *)

Fixpoint str_eqb (a b : pystr) : bool :=
  match a, b with
  | [], [] => true
  | x :: a', y :: b' => N.eqb x y && str_eqb a' b'
  | _, _ => false
  end.

(** [s.startswith(p)] *)
Fixpoint startswith (s p : pystr) {struct p} : bool :=
  match p, s with
  | [], _ => true
  | x :: p', y :: s' => N.eqb x y && startswith s' p'
  | _ :: _, [] => false
  end.

(** [s.endswith(p)] *)
Definition endswith (s p : pystr) : bool := startswith (rev s) (rev p).

(** [sub in s] *)
Fixpoint str_contains (sub s : pystr) : bool :=
  match s with
  | [] => startswith [] sub
  | _ :: s' => startswith s sub || str_contains sub s'
  end.

(** [str.isspace] on one code point: the white space of CPython's
    [_PyUnicode_IsWhitespace]. *)
Definition is_space (c : N) : bool :=
  ((9 <=? c) && (c <=? 13) || (28 <=? c) && (c <=? 32)
   || (c =? 133) || (c =? 160) || (c =? 5760)
   || (8192 <=? c) && (c <=? 8202)
   || (c =? 8232) || (c =? 8233) || (c =? 8239) || (c =? 8287)
   || (c =? 12288))%N.

(** [s.lstrip()] *)
Fixpoint lstrip (s : pystr) : pystr :=
  match s with
  | [] => []
  | c :: s' => if is_space c then lstrip s' else s
  end.

(** [s.rstrip()] *)
Fixpoint rstrip (s : pystr) : pystr :=
  match s with
  | [] => []
  | c :: s' =>
      match rstrip s' with
      | [] => if is_space c then [] else [c]
      | t => c :: t
      end
  end.

(** [s.replace(old, new)] for a non-empty [old]: the occurrences of [old]
    are found from the left and do not overlap.  [skip] counts the code
    points of a match that are still to be passed over. *)
Fixpoint replace_scan (old new : pystr) (skip : nat) (s : pystr) : pystr :=
  match s with
  | [] => []
  | c :: s' =>
      match skip with
      | S k => replace_scan old new k s'
      | O =>
          if startswith s old
          then new ++ replace_scan old new (length old - 1) s'
          else c :: replace_scan old new 0 s'
      end
  end.

(** With an empty [old], Python puts [new] before every code point and at
    the end. *)
Fixpoint replace_empty (new s : pystr) : pystr :=
  match s with
  | [] => new
  | c :: s' => new ++ c :: replace_empty new s'
  end.

Definition str_replace (old new s : pystr) : pystr :=
  match old with
  | [] => replace_empty new s
  | _ :: _ => replace_scan old new 0 s
  end.

(** [s.lower()].  The mapping is CPython's for ASCII and Latin-1; code
    points above U+00FF are left as they are.  The source only asks whether
    the lowered name ends with ".pdf", and no code point above U+00FF
    lowers to a sequence ending in one of these four characters, so the test
    is decided as CPython decides it. *)
Definition lower_cp (c : N) : N :=
  (if (65 <=? c) && (c <=? 90)
      || (192 <=? c) && (c <=? 222) && negb (c =? 215)
   then c + 32 else c)%N.

Definition str_lower (s : pystr) : pystr := map lower_cp s.

(** [posixpath.basename] on a [str]: [p[p.rfind("/") + 1:]]. *)
Fixpoint basename (p : pystr) : pystr :=
  match p with
  | [] => []
  | c :: p' =>
      if existsb (N.eqb SLASH) p' then basename p'
      else if N.eqb c SLASH then p' else p
  end.

(** [s.split("?")[0]]: the text before the first "?". *)
Fixpoint before_qmark (s : pystr) : pystr :=
  match s with
  | [] => []
  | c :: s' => if N.eqb c QMARK then [] else c :: before_qmark s'
  end.

(** [sep.join(items)] on a list of [str]. *)
Fixpoint str_join (sep : pystr) (items : list pystr) : pystr :=
  match items with
  | [] => []
  | [a] => a
  | a :: rest => a ++ sep ++ str_join sep rest
  end.

(* ================================================================== *)
(** ** Python values, exceptions *)
(* ================================================================== *)

(** The values a decoded service response is made of.  A [dict] keeps its
    entries in insertion order; its keys are values too. *)
Inductive pyval : Type :=
| PNone
| PBool (b : bool)
| PInt (n : Z)
| PStr (s : pystr)
| PList (items : list pyval)
| PDict (entries : list (pyval * pyval)).

Inductive exn : Type :=
| AttributeError
| TypeError.

(** The outcome of evaluating an expression or running a function. *)
Inductive result (A : Type) : Type :=
| Ok (a : A)
| Raise (e : exn).

Arguments Ok {A} a.
Arguments Raise {A} e.

Definition bind {A B : Type} (m : result A) (k : A -> result B) : result B :=
  match m with
  | Ok a => k a
  | Raise e => Raise e
  end.

Declare Scope py_scope.
Delimit Scope py_scope with py.
Notation "x <- m ;; k" := (bind m (fun x => k))
  (at level 100, m at next level, right associativity) : py_scope.
Open Scope py_scope.

(** [try: e  except Exception: d] for an expression. *)
Definition try_except {A : Type} (m : result A) (d : A) : A :=
  match m with
  | Ok a => a
  | Raise _ => d
  end.

(** Truth value of an object ([if x], [x or y], [not x]). *)
Definition truthy (v : pyval) : bool :=
  match v with
  | PNone => false
  | PBool b => b
  | PInt n => negb (Z.eqb n 0)
  | PStr s => match s with [] => false | _ :: _ => true end
  | PList l => match l with [] => false | _ :: _ => true end
  | PDict d => match d with [] => false | _ :: _ => true end
  end.

(** [a or b], for a [b] whose evaluation cannot raise. *)
Definition py_or (a b : pyval) : pyval := if truthy a then a else b.

Definition empty_dict : pyval := PDict [].
Definition empty_list : pyval := PList [].
Definition empty_str : pyval := PStr [].

(** Lookup of a [str] key among the entries of a [dict]: only a [str] key
    compares equal to it. *)
Fixpoint dict_find (entries : list (pyval * pyval)) (key : pystr) : option pyval :=
  match entries with
  | [] => None
  | (PStr k, v) :: rest => if str_eqb k key then Some v else dict_find rest key
  | _ :: rest => dict_find rest key
  end.

(** [obj.get(key, default)]: only a [dict] has the attribute [get]. *)
Definition py_get (obj : pyval) (key : pystr) (default : pyval) : result pyval :=
  match obj with
  | PDict entries =>
      Ok (match dict_find entries key with Some v => v | None => default end)
  | _ => Raise AttributeError
  end.

(** [iter(obj)] run to the end: a [list] yields its items, a [dict] its
    keys, a [str] its characters; nothing else is iterable. *)
Definition py_iter (obj : pyval) : result (list pyval) :=
  match obj with
  | PList items => Ok items
  | PDict entries => Ok (map fst entries)
  | PStr s => Ok (map (fun c => PStr [c]) s)
  | _ => Raise TypeError
  end.

(** [os.path.basename(p).split("?")[0]]: [os.fspath] rejects what is not a
    [str] with a [TypeError]. *)
Definition path_name (p : pyval) : result pyval :=
  match p with
  | PStr s => Ok (PStr (before_qmark (basename s)))
  | _ => Raise TypeError
  end.

(** [name.lower().endswith(".pdf")]: only a [str] has the attribute [lower]. *)
Definition lower_endswith_pdf (name : pyval) : result bool :=
  match name with
  | PStr s => Ok (endswith (str_lower s) (py ".pdf"))
  | _ => Raise AttributeError
  end.

(** *** Hashing: membership in a [set]

    Two objects are the same member of a [set] when they are equal and hash
    alike: [True == 1], [False == 0], a [str] equals the same [str] only.
    A [list] or a [dict] is unhashable. *)
Inductive hkey : Type :=
| KNone
| KNum (n : Z)
| KStr (s : pystr).

Definition hash_key (v : pyval) : option hkey :=
  match v with
  | PNone => Some KNone
  | PBool b => Some (KNum (if b then 1 else 0))
  | PInt n => Some (KNum n)
  | PStr s => Some (KStr s)
  | PList _ | PDict _ => None
  end.

Definition hkey_eqb (a b : hkey) : bool :=
  match a, b with
  | KNone, KNone => true
  | KNum x, KNum y => Z.eqb x y
  | KStr x, KStr y => str_eqb x y
  | _, _ => false
  end.

(** [k in seen] *)
Definition seen_mem (k : hkey) (seen : list hkey) : bool := existsb (hkey_eqb k) seen.

(** The de-duplication loop both extractors end with (lines 110-117 and
    160-167): it runs outside the [try] block, so a [TypeError] of
    [t not in seen] leaves the function. *)
Fixpoint dedup_loop (xs : list pyval) (seen : list hkey) (out : list pyval)
  : result (list pyval) :=
  match xs with
  | [] => Ok out
  | t :: rest =>
      match hash_key t with
      | None => Raise TypeError
      | Some k =>
          if seen_mem k seen then dedup_loop rest seen out
          else dedup_loop rest (k :: seen) (out ++ [t])
      end
  end.

Definition dedup (xs : list pyval) : result (list pyval) := dedup_loop xs [] [].

(* ================================================================== *)
(** ** Citation extractors *)
(* ================================================================== *)

(** Lines 88-89 and 132-133: [retrieved_refs.extend(...)] for every element
    of a [list] of citations. *)
Fixpoint extend_refs (cs : list pyval) (retrieved_refs : list pyval)
  : result (list pyval) :=
  match cs with
  | [] => Ok retrieved_refs
  | c :: rest =>
      refs <- py_get (py_or c empty_dict) (py "retrievedReferences") empty_list ;;
      items <- py_iter refs ;;
      extend_refs rest (retrieved_refs ++ items)
  end.

(** Lines 83-89 and 127-133: the object the [for ref in retrieved_refs]
    loop runs over. *)
Definition retrieved_references (rag_response : pyval) : result pyval :=
  raw_citations <-
    py_get (py_or rag_response empty_dict) (py "citations") empty_list ;;
  match raw_citations with
  | PDict _ => py_get raw_citations (py "retrievedReferences") empty_list
  | PList cs => refs <- extend_refs cs [] ;; Ok (PList refs)
  | _ => Ok empty_list
  end.

(** Lines 97-100 and 136-139: the storage URI, else the web URL, else the
    empty text.  Both lookups are evaluated before the [or]. *)
Definition location_candidate (ref : pyval) : result pyval :=
  loc <- py_get (py_or ref empty_dict) (py "location") empty_dict ;;
  let location := py_or loc empty_dict in
  s3 <- py_get location (py "s3Location") empty_dict ;;
  s3_uri <- py_get (py_or s3 empty_dict) (py "uri") PNone ;;
  web <- py_get location (py "webLocation") empty_dict ;;
  web_url <- py_get (py_or web empty_dict) (py "url") PNone ;;
  Ok (py_or s3_uri (py_or web_url empty_str)).

(** Lines 101-105 and 141-145: the name taken from a truthy URI or URL; the
    inner [except] falls back to the URI itself. *)
Definition name_from_location (candidate : pyval) : pyval :=
  try_except (path_name candidate) candidate.

(** Lines 91-105: the value of [title] when line 106 tests it. *)
Definition title_of_reference (ref : pyval) : result pyval :=
  md <- py_get (py_or ref empty_dict) (py "metadata") empty_dict ;;
  let metadata := py_or md empty_dict in
  t1 <- py_get metadata (py "x-amz-bedrock-kb-document-title") PNone ;;
  title <- (if truthy t1 then Ok t1
            else py_get metadata (py "x-amzn-bedrock-kb-doc-title") PNone) ;;
  if truthy title then Ok title
  else
    uri_or_url <- location_candidate ref ;;
    if truthy uri_or_url then Ok (name_from_location uri_or_url)
    else Ok title.

(** The body of a [for] loop that appends to a list: the list built so far
    is the state, and it is what remains when a turn raises. *)
Fixpoint titles_loop (refs : list pyval) (titles : list pyval)
  : list pyval * result unit :=
  match refs with
  | [] => (titles, Ok tt)
  | ref :: rest =>
      match title_of_reference ref with
      | Raise e => (titles, Raise e)
      | Ok title =>
          titles_loop rest (if truthy title then titles ++ [title] else titles)
      end
  end.

(** Lines 81-107: the [try] block; the first component is [titles] when the
    block is left, normally or by an exception. *)
Definition collect_titles (rag_response : pyval) : list pyval * result unit :=
  match (refs <- retrieved_references rag_response ;; py_iter refs) with
  | Raise e => ([], Raise e)
  | Ok refs => titles_loop refs []
  end.

(** Lines 74-117. *)
Definition _extract_document_titles_from_citations (rag_response : pyval)
  : result (list pyval) :=
  let (titles, _) := collect_titles rag_response in  (* except Exception: pass *)
  dedup titles.

(** Lines 148-155: the chain of [or] over the metadata keys. *)
Definition metadata_name (ref : pyval) : result pyval :=
  md <- py_get (py_or ref empty_dict) (py "metadata") empty_dict ;;
  let metadata := py_or md empty_dict in
  n1 <- py_get metadata (py "file_name") PNone ;;
  if truthy n1 then Ok n1 else
  n2 <- py_get metadata (py "filename") PNone ;;
  if truthy n2 then Ok n2 else
  n3 <- py_get metadata (py "x-amz-bedrock-kb-document-title") PNone ;;
  if truthy n3 then Ok n3 else
  n4 <- py_get metadata (py "x-amzn-bedrock-kb-doc-title") PNone ;;
  Ok (py_or n4 empty_str).

(** Lines 136-155: the value of [name] when line 156 tests it. *)
Definition pdf_name_of_reference (ref : pyval) : result pyval :=
  candidate <- location_candidate ref ;;
  let name :=
    if truthy candidate then name_from_location candidate else empty_str in
  if truthy name then Ok name else metadata_name ref.

(** Line 156: [name and name.lower().endswith(".pdf")]. *)
Definition is_pdf_name (name : pyval) : result bool :=
  if truthy name then lower_endswith_pdf name else Ok false.

(** Lines 136-156, one turn of the loop: the name and whether it is kept. *)
Definition filename_turn (ref : pyval) : result (pyval * bool) :=
  name <- pdf_name_of_reference ref ;;
  keep <- is_pdf_name name ;;
  Ok (name, keep).

Fixpoint filenames_loop (refs : list pyval) (filenames : list pyval)
  : list pyval * result unit :=
  match refs with
  | [] => (filenames, Ok tt)
  | ref :: rest =>
      match filename_turn ref with
      | Raise e => (filenames, Raise e)
      | Ok (name, keep) =>
          filenames_loop rest (if keep then filenames ++ [name] else filenames)
      end
  end.

(** Lines 125-157: the [try] block. *)
Definition collect_filenames (rag_response : pyval) : list pyval * result unit :=
  match (refs <- retrieved_references rag_response ;; py_iter refs) with
  | Raise e => ([], Raise e)
  | Ok refs => filenames_loop refs []
  end.

(** Lines 120-167. *)
Definition _extract_pdf_filenames_from_citations (rag_response : pyval)
  : result (list pyval) :=
  let (filenames, _) := collect_filenames rag_response in
  dedup filenames.

(* ================================================================== *)
(** ** Answer formatter *)
(* ================================================================== *)

Definition SEPARATOR : pystr := py " - ".
Definition BULLET : pystr := py "- ".
Definition NEWLINE_BULLET : pystr := LF :: py "- ".
Definition BOLD : pystr := py "**".

(** [text.replace(" - ", "\n- ")] *)
Definition bullets (s : pystr) : pystr := str_replace SEPARATOR NEWLINE_BULLET s.

(** Lines 170-180. *)
Definition _format_one_line_bullets (text : pyval) : pyval :=
  match text with
  | PStr s =>
      if negb (truthy text) then text
      else if str_contains SEPARATOR s then
        let formatted := bullets s in
        if negb (startswith (lstrip formatted) BULLET)
        then PStr (BULLET ++ lstrip formatted)
        else PStr formatted
      else text
  | _ => text
  end.

(** [text.replace] of "**" by the empty text *)
Definition remove_bold (s : pystr) : pystr := str_replace BOLD [] s.

(** Lines 183-187. *)
Definition _remove_bold_markdown (text : pyval) : pyval :=
  match text with
  | PStr s => if negb (truthy text) then text else PStr (remove_bold s)
  | _ => text
  end.

(** [text.rstrip()]: only a [str] has the attribute. *)
Definition py_rstrip (text : pyval) : result pystr :=
  match text with
  | PStr s => Ok (rstrip s)
  | _ => Raise AttributeError
  end.

(** The items of [sep.join(iterable)] must all be [str]. *)
Fixpoint all_str (items : list pyval) : result (list pystr) :=
  match items with
  | [] => Ok []
  | PStr s :: rest => l <- all_str rest ;; Ok (s :: l)
  | _ :: _ => Raise TypeError
  end.

Definition py_join (sep : pystr) (iterable : pyval) : result pystr :=
  items <- py_iter iterable ;;
  strs <- all_str items ;;
  Ok (str_join sep strs).

Definition PARAGRAPH_BREAK : pystr := [PSEP; LSEP].

(** Lines 190-204. *)
Definition _finalize_output (body_text pdf_filenames : pyval) : result pyval :=
  let text := _format_one_line_bullets (py_or body_text empty_str) in
  let text := _remove_bold_markdown text in
  text <- py_rstrip text ;;
  if truthy pdf_filenames then
    joined <- py_join (py ", ") pdf_filenames ;;
    Ok (PStr (text ++ PARAGRAPH_BREAK ++ py "Sources: " ++ joined ++ [LF]))
  else
    Ok (PStr (text ++ [LF])).

(* ================================================================== *)
(** ** Notions of the specification *)
(* ================================================================== *)

Definition str (s : string) : pyval := PStr (py s).
Definition dict1 (k : string) (v : pyval) : pyval := PDict [(str k, v)].

(** [{"citations": citations}] *)
Definition response (citations : pyval) : pyval := dict1 "citations" citations.

(** The mapping shape [{"citations": {"retrievedReferences": L}}]. *)
Definition mapping_shape (L : list pyval) : pyval :=
  response (dict1 "retrievedReferences" (PList L)).

(** The sequence shape
    [{"citations": [{"retrievedReferences": L1}, ..., {"retrievedReferences": Ln}]}]. *)
Definition sequence_shape (groups : list (list pyval)) : pyval :=
  response (PList (map (fun L => dict1 "retrievedReferences" (PList L)) groups)).

(** The white space a text begins with. *)
Fixpoint leading_ws (s : pystr) : pystr :=
  match s with
  | [] => []
  | c :: s' => if is_space c then c :: leading_ws s' else []
  end.

(** [seg] is the final path segment of [u]: what follows the last "/". *)
Definition final_segment (u seg : pystr) : Prop :=
  ~ In SLASH seg /\ (u = seg \/ exists dir, u = dir ++ SLASH :: seg).

(** [name] is [seg] without its query string: what precedes the first "?". *)
Definition without_query (seg name : pystr) : Prop :=
  ~ In QMARK name /\ (seg = name \/ exists query, seg = name ++ QMARK :: query).

(** A name ends with ".pdf" whatever the case of the three letters. *)
Definition ends_with_pdf_ci (name : pystr) : Prop :=
  exists stem p d f,
    name = stem ++ [46; p; d; f]%N
    /\ (p = 112 \/ p = 80)%N /\ (d = 100 \/ d = 68)%N /\ (f = 102 \/ f = 70)%N.

(** Two values are one member of a set. *)
Definition same_value (a b : pyval) : Prop := hash_key a = hash_key b.

(** Stable de-duplication: [out] holds every value of [cands] once, each
    entry is the first occurrence of its value in [cands], and the entries
    before it were all seen before that occurrence. *)
Definition stable_dedup_of (cands out : list pyval) : Prop :=
  NoDup (map hash_key out)
  /\ (forall x, In x cands -> exists y, In y out /\ same_value x y)
  /\ (forall l1 x l2, out = l1 ++ x :: l2 ->
        exists c1 c2, cands = c1 ++ x :: c2
                      /\ (forall y, In y c1 -> ~ same_value x y)
                      /\ incl l1 c1).

(** *** References used as examples *)

(** Scenario B: [{"location": {"s3Location": {"uri": "s3://bucket/path/Report.PDF?x=1"}}}]. *)
Definition scenario_B_reference : pyval :=
  dict1 "location"
    (dict1 "s3Location" (dict1 "uri" (str "s3://bucket/path/Report.PDF?x=1"))).

(** A storage URI that ends with "/", beside a file name in the metadata. *)
Definition folder_reference : pyval :=
  PDict [(str "location", dict1 "s3Location" (dict1 "uri" (str "s3://bucket/dir/")));
         (str "metadata", dict1 "file_name" (str "x.pdf"))].

(** A document title that is a list: [{"metadata": {"x-amz-bedrock-kb-document-title": ["a"]}}]. *)
Definition list_title_reference : pyval :=
  dict1 "metadata" (dict1 "x-amz-bedrock-kb-document-title" (PList [str "a"])).

(** *** Notions used for the extractors *)

(** [d.get(key, default)] for the entries of a [dict]. *)
Definition value_at (entries : list (pyval * pyval)) (key : pystr) (default : pyval)
  : pyval :=
  match dict_find entries key with
  | Some v => v
  | None => default
  end.

(** The two keys a title is read from, in the order of the source. *)
Definition TITLE_KEY : pystr := py "x-amz-bedrock-kb-document-title".
Definition TITLE_KEY_ALT : pystr := py "x-amzn-bedrock-kb-doc-title".

(** *** Notions used for the formatter *)

(** The characters of a text that are not white space. *)
Definition non_blank (s : pystr) : pystr := filter (fun c => negb (is_space c)) s.

(** The characters of a text that are not asterisks. *)
Definition non_star (s : pystr) : pystr := filter (fun c => negb (N.eqb c STAR)) s.

(** A character is kept, or it is a space that became a line feed. *)
Definition kept_or_newline (a b : N) : Prop := a = b \/ (a = SP /\ b = LF).

(* ================================================================== *)
(** ** Endpoints *)
(* ================================================================== *)

(** Lines 40-46. *)
Definition SYSTEM_PROMPT : pystr :=
  py "You are a medical knowledge assistant." ++ LF ::
  py "Format answers as follows:" ++ LF ::
  py "- When needing to list out the retrieved contents, use bullet points, one sentence per line."
     ++ LF ::
  py "- Each point must be concise and on its own line." ++ LF ::
  py "- Always cite the source with document name.".

(** What an endpoint can raise: the exceptions of the functions above, the
    [KeyError] of a subscript, the two families of exceptions of the AWS
    clients, any other exception of a client, and the [HTTPException] the
    endpoints raise themselves.  A client's exception carries the arguments
    it was built with. *)
Inductive raised : Type :=
| Builtin (e : exn)
| KeyError (key : pystr)
| ClientError (args : pystr)
| BotoCoreError (args : pystr)
| OtherException (args : pystr)
| HTTPException (status_code : Z) (detail : pystr).

Inductive outcome (A : Type) : Type :=
| Return (a : A)
| Throw (e : raised).

Arguments Return {A} a.
Arguments Throw {A} e.

Definition and_then {A B : Type} (m : outcome A) (k : A -> outcome B) : outcome B :=
  match m with
  | Return a => k a
  | Throw e => Throw e
  end.

Notation "x <~ m ;; k" := (and_then m (fun x => k))
  (at level 100, m at next level, right associativity) : py_scope.

(** A call of one of the functions above from an endpoint. *)
Definition of_result {A : Type} (m : result A) : outcome A :=
  match m with
  | Ok a => Return a
  | Raise e => Throw (Builtin e)
  end.

(** [try: m  except ...: raise h(e)]: every handler of the endpoints raises. *)
Definition try_with {A : Type} (h : raised -> raised) (m : outcome A) : outcome A :=
  match m with
  | Return a => Return a
  | Throw e => Throw (h e)
  end.

(** [obj[key]] for a [str] key: a [dict] without the key raises [KeyError];
    a [list] or a [str] takes no [str] index, and nothing else can be
    subscripted. *)
Definition py_subscript (obj : pyval) (key : pystr) : outcome pyval :=
  match obj with
  | PDict entries =>
      match dict_find entries key with
      | Some v => Return v
      | None => Throw (KeyError key)
      end
  | _ => Throw (Builtin TypeError)
  end.

(** Lines 229 and 326: the generator over [contents] that takes the "text"
    of every block, the empty text by default, run to its end. *)
Fixpoint block_texts (blocks : list pyval) : result (list pyval) :=
  match blocks with
  | [] => Ok []
  | block :: rest =>
      t <- py_get block (py "text") empty_str ;;
      ts <- block_texts rest ;;
      Ok (t :: ts)
  end.

(** Lines 226-231 and 323-328: the text of the model's answer; whatever is
    raised on the way leaves the empty text. *)
Definition generated_text_of (response : pyval) : pystr :=
  match (output <~ py_subscript response (py "output") ;;
         message <~ py_subscript output (py "message") ;;
         contents <~ py_subscript message (py "content") ;;
         of_result (blocks <- py_iter contents ;;
                    texts <- block_texts blocks ;;
                    strs <- all_str texts ;;
                    Ok (str_join [] strs))) with
  | Return generated_text => generated_text
  | Throw _ => []
  end.

Definition HTTP_500 (detail : pystr) : raised := HTTPException 500 detail.

(** Lines 273-281: the handlers of [/bedrock/query], with fixed details. *)
Definition handle_fixed (e : raised) : raised :=
  match e with
  | ClientError _ => HTTP_500 (py "AWS Client error occurred.")
  | BotoCoreError _ => HTTP_500 (py "AWS BotoCore error occurred.")
  | _ => HTTP_500 (py "An unexpected error occurred.")
  end.

Section Endpoints.

(** The configuration read from the environment (lines 31-33): a [str], or
    [None] for a variable that is not set. *)
Variable MODEL_ID : pyval.
Variable KNOWLEDGE_BASE_ID : pyval.
Variable MODEL_ARN : pyval.

(** [bedrock_client.converse], as a function of the model identifier, the
    system prompt and the user's text (the inference configuration is a
    constant), and [bedrock_agent_client.retrieve_and_generate], as a
    function of the user's text, the knowledge base and the model: each
    returns the decoded response or raises. *)
Variable converse : pyval -> pystr -> pystr -> outcome pyval.
Variable retrieve_and_generate : pystr -> pyval -> pyval -> outcome pyval.

(** [str(e)] *)
Variable exception_text : raised -> pystr.

(** Lines 238-246 and 336-344: the handlers of [/bedrock/invoke] and
    [/chat], whose details quote the exception. *)
Definition handle_detailed (e : raised) : raised :=
  match e with
  | ClientError _ => HTTP_500 (py "AWS Client error: " ++ exception_text e)
  | BotoCoreError _ => HTTP_500 (py "AWS BotoCore error: " ++ exception_text e)
  | _ => HTTP_500 (py "Unexpected error: " ++ exception_text e)
  end.

(** Lines 216-237 and 313-334: the model is asked, and its answer is
    formatted without sources. *)
Definition converse_answer (text : pystr) : outcome pyval :=
  response <~ converse MODEL_ID SYSTEM_PROMPT text ;;
  let generated_text := generated_text_of response in
  if negb (truthy (PStr generated_text))
  then Throw (HTTP_500 (py "Model did not return any content."))
  else of_result (_finalize_output (PStr generated_text) PNone).

(** Lines 260-272 and 294-306: the knowledge base is asked, and its answer
    is formatted with the file names of its citations. *)
Definition knowledge_base_answer (text : pystr) : outcome pyval :=
  response <~ retrieve_and_generate text KNOWLEDGE_BASE_ID MODEL_ARN ;;
  output <~ py_subscript response (py "output") ;;
  body <~ py_subscript output (py "text") ;;
  pdfs <~ of_result (_extract_pdf_filenames_from_citations response) ;;
  of_result (_finalize_output body (PList pdfs)).

(** Lines 206-246: [GET /bedrock/invoke]. *)
Definition invoke_model (text : pystr) : outcome pyval :=
  if negb (truthy MODEL_ID)
  then Throw (HTTP_500 (py "MODEL_ID is not configured."))
  else
    try_with handle_detailed
      (answer <~ converse_answer text ;;
       Return (PDict [(str "response", answer)])).

(** Lines 249-281: [GET /bedrock/query].  [input_text] is built and not
    used: the knowledge base receives the user's text alone. *)
Definition query_with_knowledge_base (text : pystr) : outcome pyval :=
  if negb (truthy KNOWLEDGE_BASE_ID) || negb (truthy MODEL_ARN)
  then Throw (HTTP_500 (py "Knowledge base configuration is missing."))
  else
    let input_text := SYSTEM_PROMPT ++ [LF; LF] ++ py "User: " ++ text in
    try_with handle_fixed
      (answer <~ knowledge_base_answer text ;;
       Return (PDict [(str "response", answer)])).

(** Lines 283-344: [POST /chat] for a request with the fields [message] and
    [use_knowledge_base].  The configuration is tested inside the [try]. *)
Definition chat_endpoint (message : pystr) (use_knowledge_base : bool)
  : outcome pyval :=
  try_with handle_detailed
    (if use_knowledge_base then
       if negb (truthy KNOWLEDGE_BASE_ID) || negb (truthy MODEL_ARN)
       then Throw (HTTP_500 (py "Knowledge base configuration is missing."))
       else
         answer <~ knowledge_base_answer message ;;
         Return (PDict [(str "response", answer); (str "type", str "knowledge_base")])
     else
       if negb (truthy MODEL_ID)
       then Throw (HTTP_500 (py "MODEL_ID is not configured."))
       else
         answer <~ converse_answer message ;;
         Return (PDict [(str "response", answer); (str "type", str "general")])).

End Endpoints.

(** *** Responses used in the statements *)

(** [{"output": {"message": {"content": blocks}}}] *)
Definition converse_response (blocks : list pyval) : pyval :=
  dict1 "output" (dict1 "message" (dict1 "content" (PList blocks))).

(** [{"text": t}] *)
Definition text_block (t : pystr) : pyval := dict1 "text" (PStr t).

(** A model that always answers with one block of text, and a knowledge base
    that always answers with a text and the citation of Scenario B. *)
Definition answering_converse (answer : pystr) : pyval -> pystr -> pystr -> outcome pyval :=
  fun _ _ _ => Return (converse_response [text_block answer]).

Definition knowledge_base_response (answer : pystr) : pyval :=
  PDict [(str "output", dict1 "text" (PStr answer));
         (str "citations", PList [dict1 "retrievedReferences" (PList [scenario_B_reference])])].

Definition answering_knowledge_base (answer : pystr)
  : pystr -> pyval -> pyval -> outcome pyval :=
  fun _ _ _ => Return (knowledge_base_response answer).

(** Clients that fail. *)
Definition failing_converse (e : raised) : pyval -> pystr -> pystr -> outcome pyval :=
  fun _ _ _ => Throw e.

Definition failing_knowledge_base (e : raised)
  : pystr -> pyval -> pyval -> outcome pyval :=
  fun _ _ _ => Throw e.

(** A [str] that shows nothing of the exception. *)
Definition no_text : raised -> pystr := fun _ => [].

(* ================================================================== *)
(** ** Strings: basic facts *)
(* ================================================================== *)

(** A closed statement decided by running the functions. *)
Ltac by_evaluation := vm_compute; reflexivity.

Lemma str_eqb_eq (a b : pystr) : str_eqb a b = true <-> a = b.
Proof.
  revert b; induction a as [|x a IH]; intros [|y b]; simpl; split;
    try congruence; try reflexivity.
  - intros H. apply andb_true_iff in H as [Hx Ha].
    apply N.eqb_eq in Hx. apply IH in Ha. congruence.
  - intros H. injection H as -> ->. rewrite N.eqb_refl. simpl. now apply IH.
Qed.

Lemma str_eqb_refl (a : pystr) : str_eqb a a = true.
Proof. now apply str_eqb_eq. Qed.

Lemma startswith_nil (s : pystr) : startswith s [] = true.
Proof. destruct s; reflexivity. Qed.

Lemma startswith_prefix (s p : pystr) :
  startswith s p = true <-> exists t, s = p ++ t.
Proof.
  revert s; induction p as [|x p IH]; intros s.
  - rewrite startswith_nil. split; [exists s; reflexivity | reflexivity].
  - destruct s as [|y s]; simpl.
    + split; [discriminate | intros [t H]; discriminate].
    + rewrite andb_true_iff, N.eqb_eq, IH. split.
      * intros [-> [t ->]]. now exists t.
      * intros [t H]. injection H as -> ->. split; [reflexivity | now exists t].
Qed.

Lemma startswith_app_l (p t : pystr) : startswith (p ++ t) p = true.
Proof. apply startswith_prefix. now exists t. Qed.

(** A one-character suffix is decided by the last character. *)
Lemma endswith_app_single (a b : pystr) (c : N) :
  b <> [] -> endswith (a ++ b) [c] = endswith b [c].
Proof.
  intros Hb. unfold endswith. rewrite rev_app_distr. simpl.
  destruct (rev b) as [|y r] eqn:E.
  - exfalso. apply Hb. apply (f_equal (@rev N)) in E.
    now rewrite rev_involutive in E.
  - simpl. rewrite ?startswith_nil, ?andb_true_r. reflexivity.
Qed.

Lemma endswith_snoc (a : pystr) (c d : N) :
  endswith (a ++ [d]) [c] = N.eqb c d.
Proof.
  unfold endswith. rewrite rev_app_distr. simpl.
  rewrite ?startswith_nil, ?andb_true_r. reflexivity.
Qed.

Lemma endswith_snoc2 (a : pystr) (c d e : N) :
  endswith (a ++ [e]) [c; d] = N.eqb d e && endswith a [c].
Proof.
  unfold endswith. rewrite rev_app_distr. simpl. reflexivity.
Qed.

Lemma endswith_nil_single (c : N) : endswith [] [c] = false.
Proof. reflexivity. Qed.

(** *** [rstrip] *)

Lemma rstrip_last_not_space (s : pystr) (c : N) :
  is_space c = true -> endswith (rstrip s) [c] = false.
Proof.
  intros Hc. induction s as [|x s IH]; simpl; [reflexivity|].
  destruct (rstrip s) as [|y t] eqn:E.
  - destruct (is_space x) eqn:Hx; [reflexivity|].
    change [x] with ([] ++ [x]). rewrite endswith_snoc.
    apply N.eqb_neq. intros ->. congruence.
  - change (x :: y :: t) with ([x] ++ y :: t).
    rewrite endswith_app_single by discriminate. exact IH.
Qed.

Lemma rstrip_prefix (s : pystr) : exists t, s = rstrip s ++ t.
Proof.
  induction s as [|x s [t IH]]; simpl; [now exists []|].
  destruct (rstrip s) as [|y r] eqn:E.
  - destruct (is_space x).
    + now exists (x :: s).
    + exists t. simpl in *. now rewrite <- IH.
  - exists t. simpl in *. now rewrite <- IH.
Qed.

(** *** [lstrip] and the leading white space *)

Lemma leading_ws_lstrip (s : pystr) : s = leading_ws s ++ lstrip s.
Proof.
  induction s as [|c s IH]; simpl; [reflexivity|].
  destruct (is_space c); simpl; [now rewrite <- IH | reflexivity].
Qed.

Lemma leading_ws_all_space (s : pystr) : forallb is_space (leading_ws s) = true.
Proof.
  induction s as [|c s IH]; simpl; [reflexivity|].
  destruct (is_space c) eqn:E; simpl; [now rewrite E | reflexivity].
Qed.

Lemma lstrip_head_not_space (s : pystr) (c : N) (t : pystr) :
  lstrip s = c :: t -> is_space c = false.
Proof.
  induction s as [|x s IH]; simpl; [discriminate|].
  destruct (is_space x) eqn:E; [exact IH|].
  intros H. injection H as -> _. exact E.
Qed.

Lemma leading_ws_app (w t : pystr) :
  forallb is_space w = true ->
  leading_ws t = [] ->
  leading_ws (w ++ t) = w.
Proof.
  intros Hw Ht. induction w as [|c w IH]; simpl in *; [exact Ht|].
  apply andb_true_iff in Hw as [Hc Hw]. rewrite Hc. now rewrite IH.
Qed.

Lemma lstrip_app (w t : pystr) :
  forallb is_space w = true ->
  leading_ws t = [] ->
  lstrip (w ++ t) = t.
Proof.
  intros Hw Ht. induction w as [|c w IH]; simpl in *.
  - destruct t as [|x t]; simpl in *; [reflexivity|].
    destruct (is_space x); [discriminate | reflexivity].
  - apply andb_true_iff in Hw as [Hc Hw]. rewrite Hc. now apply IH.
Qed.

(** *** [replace] *)

Lemma replace_scan_skip (old new : pystr) (k : nat) (s : pystr) :
  replace_scan old new k s = replace_scan old new 0 (skipn k s).
Proof.
  revert k; induction s as [|c s IH]; intros [|k]; try reflexivity.
  simpl. apply IH.
Qed.

(** The scan, one step at a time. *)
Lemma replace_scan_nil (old new : pystr) : replace_scan old new 0 [] = [].
Proof. reflexivity. Qed.

Lemma replace_scan_hit (old new s : pystr) :
  old <> [] -> startswith s old = true ->
  replace_scan old new 0 s = new ++ replace_scan old new 0 (skipn (length old) s).
Proof.
  intros Ho H. destruct old as [|o old]; [congruence|].
  destruct s as [|c s]; [discriminate|].
  cbn [replace_scan]. rewrite H. f_equal.
  rewrite replace_scan_skip. f_equal.
  simpl. now rewrite Nat.sub_0_r.
Qed.

Lemma replace_scan_miss (old new : pystr) (c : N) (s : pystr) :
  startswith (c :: s) old = false ->
  replace_scan old new 0 (c :: s) = c :: replace_scan old new 0 s.
Proof. intros H. cbn [replace_scan]. now rewrite H. Qed.

(** Without an occurrence of [old] nothing is replaced. *)
Lemma replace_scan_absent (old new s : pystr) :
  str_contains old s = false -> replace_scan old new 0 s = s.
Proof.
  induction s as [|c s IH]; [reflexivity|].
  cbn [str_contains]. intros H. apply orb_false_iff in H as [H1 H2].
  rewrite replace_scan_miss by exact H1. now rewrite IH.
Qed.

(** White space before a text that does not start with the separator is
    copied. *)
Lemma str_contains_app_r (sub a b : pystr) :
  str_contains sub b = true -> str_contains sub (a ++ b) = true.
Proof.
  intros H. induction a as [|c a IH]; simpl; [exact H|].
  rewrite IH. apply orb_true_r.
Qed.

(** *** Bold markers *)

Lemma BOLD_eq : BOLD = [STAR; STAR].
Proof. reflexivity. Qed.

Lemma remove_bold_nil : remove_bold [] = [].
Proof. reflexivity. Qed.

Lemma remove_bold_hit (s : pystr) : remove_bold (STAR :: STAR :: s) = remove_bold s.
Proof.
  unfold remove_bold. rewrite BOLD_eq. unfold str_replace.
  rewrite replace_scan_hit; [reflexivity | discriminate | reflexivity].
Qed.

Lemma remove_bold_miss (c : N) (s : pystr) :
  startswith (c :: s) BOLD = false -> remove_bold (c :: s) = c :: remove_bold s.
Proof.
  intros H. unfold remove_bold. rewrite BOLD_eq in *. unfold str_replace.
  now apply replace_scan_miss.
Qed.

(** Induction along the scan for "**". *)
Lemma bold_scan_ind (P : pystr -> Prop) :
  P [] ->
  (forall s, P s -> P (STAR :: STAR :: s)) ->
  (forall c s, startswith (c :: s) BOLD = false -> P s -> P (c :: s)) ->
  forall s, P s.
Proof.
  intros Hnil Hhit Hmiss s.
  assert (H : forall n s, length s <= n -> P s).
  { induction n as [|n IH]; intros t Hlen.
    - destruct t; [exact Hnil | simpl in Hlen; lia].
    - destruct t as [|c t]; [exact Hnil|].
      destruct (startswith (c :: t) BOLD) eqn:E.
      + apply startswith_prefix in E as [r E]. simpl in E.
        injection E as -> ->. apply Hhit. apply IH. simpl in Hlen. lia.
      + apply Hmiss; [exact E|]. apply IH. simpl in Hlen. lia. }
  apply (H (length s)). lia.
Qed.

Lemma remove_bold_head (s : pystr) :
  startswith s [STAR] = false -> startswith (remove_bold s) [STAR] = false.
Proof.
  destruct s as [|c s]; [reflexivity|].
  intros H. rewrite remove_bold_miss.
  - exact H.
  - simpl in *. apply andb_false_iff in H as [H|H]; [now rewrite H | discriminate H].
Qed.

(** No "**" is left after the removal. *)
Lemma remove_bold_clean (s : pystr) : str_contains BOLD (remove_bold s) = false.
Proof.
  induction s as [| s IH | c s Hc IH] using bold_scan_ind.
  - reflexivity.
  - now rewrite remove_bold_hit.
  - rewrite remove_bold_miss by exact Hc.
    cbn [str_contains]. rewrite IH, orb_false_r.
    rewrite BOLD_eq in *. cbn [startswith] in *.
    destruct (N.eqb STAR c) eqn:E; [|reflexivity]. simpl in *.
    destruct s as [|d s]; [now rewrite remove_bold_nil|].
    rewrite andb_true_r in Hc.
    assert (Hd : startswith (d :: s) [STAR] = false)
      by (simpl; now rewrite Hc).
    apply remove_bold_head in Hd.
    destruct (remove_bold (d :: s)); [reflexivity|].
    simpl in Hd. now rewrite andb_true_r in *.
Qed.

Lemma remove_bold_idempotent (s : pystr) :
  remove_bold (remove_bold s) = remove_bold s.
Proof.
  unfold remove_bold at 1. pose proof (remove_bold_clean s) as H.
  rewrite BOLD_eq in *. unfold str_replace.
  now apply replace_scan_absent.
Qed.

Lemma startswith_app_weaken (a b p : pystr) :
  startswith a p = true -> startswith (a ++ b) p = true.
Proof.
  intros H. apply startswith_prefix in H as [t ->].
  rewrite <- app_assoc. apply startswith_app_l.
Qed.

Lemma str_contains_app_l (sub a b : pystr) :
  str_contains sub a = true -> str_contains sub (a ++ b) = true.
Proof.
  induction a as [|c a IH]; simpl.
  - intros H. destruct sub; [|discriminate]. destruct b; reflexivity.
  - intros H. apply orb_true_iff in H as [H|H].
    + change (c :: a ++ b) with ((c :: a) ++ b).
      now rewrite (startswith_app_weaken _ b _ H).
    + rewrite (IH H). apply orb_true_r.
Qed.

(** Where the right part does not begin with "*", no "**" straddles the
    seam. *)
Lemma contains_bold_app (a b : pystr) :
  startswith b [STAR] = false ->
  str_contains BOLD (a ++ b) = str_contains BOLD a || str_contains BOLD b.
Proof.
  intros Hb. rewrite BOLD_eq. induction a as [|c a IH]; [reflexivity|].
  change ((c :: a) ++ b) with (c :: (a ++ b)).
  cbn [str_contains]. rewrite IH, orb_assoc. f_equal. f_equal.
  cbn [startswith]. f_equal.
  destruct a as [|d a]; [exact Hb | reflexivity].
Qed.

Lemma contains_bold_join (items : list pystr) :
  str_contains BOLD (str_join (py ", ") items) = existsb (str_contains BOLD) items.
Proof.
  induction items as [|a rest IH]; [reflexivity|].
  destruct rest as [|b rest].
  - simpl. now rewrite orb_false_r.
  - change (str_join (py ", ") (a :: b :: rest))
      with (a ++ py ", " ++ str_join (py ", ") (b :: rest)).
    rewrite contains_bold_app by reflexivity.
    cbn [existsb] in *. rewrite <- IH. reflexivity.
Qed.

(** *** The last character of a joined list *)

Lemma endswith_join_last (items : list pystr) (pre : pystr) :
  pre <> [] -> endswith pre [LF] = false ->
  endswith (pre ++ str_join (py ", ") items) [LF] = endswith (last items []) [LF].
Proof.
  revert pre; induction items as [|a rest IH]; intros pre Hne Hpre.
  - simpl. now rewrite app_nil_r.
  - destruct rest as [|b rest].
    + simpl. destruct a as [|x a].
      * now rewrite app_nil_r.
      * now apply endswith_app_single.
    + change (str_join (py ", ") (a :: b :: rest))
        with (a ++ py ", " ++ str_join (py ", ") (b :: rest)).
      change (last (a :: b :: rest) []) with (last (b :: rest) (@nil N)).
      rewrite !app_assoc. rewrite <- (app_assoc pre a).
      apply IH.
      * destruct pre; [congruence | discriminate].
      * rewrite app_assoc. change (py ", ") with ([44%N] ++ [SP]).
        rewrite app_assoc. now rewrite endswith_snoc.
Qed.

(* ================================================================== *)
(** ** The formatter on a text and a list of names *)
(* ================================================================== *)

Lemma all_str_map (names : list pystr) : all_str (map PStr names) = Ok names.
Proof.
  induction names as [|a names IH]; [reflexivity|].
  simpl. now rewrite IH.
Qed.

Lemma format_bullets_str (s : pystr) :
  exists t, _format_one_line_bullets (PStr s) = PStr t.
Proof.
  unfold _format_one_line_bullets.
  destruct (negb (truthy (PStr s))); [now exists s|].
  destruct (str_contains SEPARATOR s); [|now exists s].
  cbv zeta. destruct (negb _); eexists; reflexivity.
Qed.

Lemma remove_bold_markdown_str (s : pystr) :
  exists t, _remove_bold_markdown (PStr s) = PStr t /\ str_contains BOLD t = false.
Proof.
  unfold _remove_bold_markdown. destruct s as [|c s]; simpl.
  - now exists [].
  - exists (remove_bold (c :: s)). split; [reflexivity | apply remove_bold_clean].
Qed.

(** What [_finalize_output] returns for a [str] body (or [None]) and a list
    of names: a right-stripped text free of "**", then either the newline or
    the Sources paragraph. *)
Lemma finalize_shape (body : pyval) (sources : list pystr) :
  body = PNone \/ (exists s, body = PStr s) ->
  exists t,
    str_contains BOLD t = false
    /\ (forall c, is_space c = true -> endswith t [c] = false)
    /\ _finalize_output body (PList (map PStr sources))
       = Ok (PStr (match sources with
                   | [] => t ++ [LF]
                   | _ :: _ =>
                       t ++ PARAGRAPH_BREAK ++ py "Sources: "
                         ++ str_join (py ", ") sources ++ [LF]
                   end)).
Proof.
  intros Hbody.
  assert (Hor : exists s, py_or body empty_str = PStr s).
  { destruct Hbody as [-> | [s ->]]; [now exists []|].
    destruct s; [now exists [] | eexists; reflexivity]. }
  destruct Hor as [s Hs].
  destruct (format_bullets_str s) as [f Hf].
  destruct (remove_bold_markdown_str f) as [r [Hr Hclean]].
  exists (rstrip r). split; [|split].
  - destruct (rstrip_prefix r) as [t Ht].
    destruct (str_contains BOLD (rstrip r)) eqn:E; [|reflexivity].
    apply (str_contains_app_l _ _ t) in E. rewrite <- Ht in E. congruence.
  - intros c Hc. now apply rstrip_last_not_space.
  - unfold _finalize_output. rewrite Hs, Hf, Hr. simpl.
    destruct sources as [|a rest]; [reflexivity|].
    cbn [map truthy]. unfold py_join. cbn [py_iter bind].
    change (PStr a :: map PStr rest) with (map PStr (a :: rest)).
    rewrite all_str_map. reflexivity.
Qed.

(* ================================================================== *)
(** ** Properties of the formatter *)
(* ================================================================== *)

(** C8. Removing the bold markers is idempotent: for every text (and for
    every other value, which the function returns as it is),
    [_remove_bold_markdown (_remove_bold_markdown s) = _remove_bold_markdown s]. *)
Theorem remove_bold_markdown_idempotent (text : pyval) :
  _remove_bold_markdown (_remove_bold_markdown text) = _remove_bold_markdown text.
Proof.
  destruct text as [| b | n | s | l | d]; try reflexivity.
  destruct s as [|c s]; [reflexivity|].
  cbn [_remove_bold_markdown truthy negb].
  destruct (remove_bold (c :: s)) as [|x r] eqn:E; [reflexivity|].
  cbn [truthy negb]. rewrite <- E. now rewrite remove_bold_idempotent.
Qed.

(** C5, counterexample.  A source name that ends with a line feed: the
    output ends with two of them. *)
Lemma finalize_two_newlines :
  _finalize_output (str "x") (PList [PStr (py "a.pdf" ++ [LF])])
  = Ok (PStr (py "x" ++ PARAGRAPH_BREAK ++ py "Sources: a.pdf" ++ [LF; LF]))
  /\ endswith (py "x" ++ PARAGRAPH_BREAK ++ py "Sources: a.pdf" ++ [LF; LF]) [LF; LF]
     = true.
Proof. split; by_evaluation. Qed.

(** The output ends with a line feed, and with two of them exactly when the
    last source name ends with one. *)
Lemma finalize_newlines (body : pystr) (sources : list pystr) :
  exists out,
    _finalize_output (PStr body) (PList (map PStr sources)) = Ok (PStr out)
    /\ endswith out [LF] = true
    /\ endswith out [LF; LF] = endswith (last sources []) [LF].
Proof.
  destruct (finalize_shape sources (or_intror (ex_intro _ body eq_refl)))
    as [t [_ [Hsp Hout]]].
  eexists. split; [exact Hout|].
  assert (Hlf : endswith t [LF] = false) by (apply Hsp; reflexivity).
  destruct sources as [|a rest].
  - split.
    + rewrite endswith_snoc. reflexivity.
    + rewrite endswith_snoc2. rewrite Hlf. reflexivity.
  - set (pre := t ++ PARAGRAPH_BREAK ++ py "Sources:" ++ [SP]).
    replace (t ++ PARAGRAPH_BREAK ++ py "Sources: "
               ++ str_join (py ", ") (a :: rest) ++ [LF])
      with ((pre ++ str_join (py ", ") (a :: rest)) ++ [LF])
      by (unfold pre; now rewrite <- !app_assoc).
    split.
    + rewrite endswith_snoc. reflexivity.
    + rewrite endswith_snoc2. change (N.eqb LF LF) with true. cbn [andb].
      apply endswith_join_last.
      * unfold pre. destruct t; discriminate.
      * unfold pre. rewrite !app_assoc. now rewrite endswith_snoc.
Qed.

(** C6, counterexample.  The Sources paragraph is appended after the bold
    markers were removed from the body: a "**" in a source name stays. *)
Lemma finalize_keeps_bold_of_sources :
  _finalize_output (str "x") (PList [str "a**b.pdf"])
  = Ok (PStr (py "x" ++ PARAGRAPH_BREAK ++ py "Sources: a**b.pdf" ++ [LF]))
  /\ str_contains BOLD (py "x" ++ PARAGRAPH_BREAK ++ py "Sources: a**b.pdf" ++ [LF])
     = true.
Proof. split; by_evaluation. Qed.

(** C6, amended.  For every body text and every list of source names, the
    output contains "**" exactly when one of the source names does: no bold
    marker of the body remains, and an output without sources, or with
    source names free of "**", has none. *)
Theorem finalize_bold_only_from_sources (body : pystr) (sources : list pystr) :
  exists out,
    _finalize_output (PStr body) (PList (map PStr sources)) = Ok (PStr out)
    /\ str_contains BOLD out = existsb (str_contains BOLD) sources.
Proof.
  destruct (finalize_shape sources (or_intror (ex_intro _ body eq_refl)))
    as [t [Hclean [_ Hout]]].
  eexists. split; [exact Hout|].
  destruct sources as [|a rest].
  - rewrite contains_bold_app by reflexivity. now rewrite Hclean.
  - rewrite contains_bold_app by reflexivity. rewrite Hclean.
    cbn [orb]. rewrite (app_assoc (py "Sources: ")).
    change (PARAGRAPH_BREAK ++ (py "Sources: " ++ str_join (py ", ") (a :: rest)) ++ [LF])
      with (PARAGRAPH_BREAK ++ py "Sources: "
              ++ (str_join (py ", ") (a :: rest) ++ [LF])).
    change (str_contains BOLD (PARAGRAPH_BREAK ++ py "Sources: "
              ++ (str_join (py ", ") (a :: rest) ++ [LF])))
      with (str_contains BOLD (str_join (py ", ") (a :: rest) ++ [LF])).
    rewrite contains_bold_app by reflexivity.
    rewrite contains_bold_join. apply orb_false_r.
Qed.

(** C9. [_finalize_output] returns a text for every body text and every
    list of source names, and the text is never empty; a [None] body is
    treated as the empty text; an empty body gives exactly the line feed
    when there are no sources, and the Sources paragraph with its line feed
    when there are. *)
Theorem finalize_never_raises (body : pystr) (sources : list pystr) :
  (exists out,
      _finalize_output (PStr body) (PList (map PStr sources)) = Ok (PStr out)
      /\ out <> [])
  /\ _finalize_output PNone (PList (map PStr sources))
     = _finalize_output (PStr []) (PList (map PStr sources))
  /\ _finalize_output (PStr []) (PList []) = Ok (PStr [LF])
  /\ _finalize_output PNone (PList []) = Ok (PStr [LF])
  /\ (forall a rest,
         _finalize_output (PStr []) (PList (map PStr (a :: rest)))
         = Ok (PStr (PARAGRAPH_BREAK ++ py "Sources: "
                       ++ str_join (py ", ") (a :: rest) ++ [LF]))).
Proof.
  split; [|split; [reflexivity | split; [reflexivity | split; [reflexivity|]]]].
  - destruct (finalize_shape sources (or_intror (ex_intro _ body eq_refl)))
      as [t [_ [_ Hout]]].
    eexists. split; [exact Hout|].
    destruct sources; destruct t; discriminate.
  - intros a rest. unfold _finalize_output. simpl.
    unfold py_join. cbn [py_iter bind].
    change (PStr a :: map PStr rest) with (map PStr (a :: rest)).
    now rewrite all_str_map.
Qed.

(* ================================================================== *)
(** ** Bullets and the leading white space *)
(* ================================================================== *)

Lemma SEPARATOR_eq : SEPARATOR = [SP; HYPHEN; SP].
Proof. reflexivity. Qed.

Lemma BULLET_eq : BULLET = [HYPHEN; SP].
Proof. reflexivity. Qed.

Lemma bullets_scan (s : pystr) :
  bullets s = replace_scan SEPARATOR NEWLINE_BULLET 0 s.
Proof. reflexivity. Qed.

(** A text that does not begin with white space keeps its first character. *)
Lemma bullets_no_leading_ws (t : pystr) :
  leading_ws t = [] -> leading_ws (bullets t) = [].
Proof.
  destruct t as [|c t]; [reflexivity|].
  simpl. destruct (is_space c) eqn:E; [discriminate|]. intros _.
  rewrite bullets_scan, replace_scan_miss.
  - simpl. now rewrite E.
  - rewrite SEPARATOR_eq. cbn [startswith].
    destruct (N.eqb SP c) eqn:Ec; [|reflexivity].
    apply N.eqb_eq in Ec. subst c. discriminate E.
Qed.

(** The separator can reach into the leading white space only with its
    first character: the scan copies the white space, unless its last
    character is the space of a separator, which then becomes a line feed. *)
Lemma bullets_leading_ws (w t : pystr) :
  forallb is_space w = true ->
  leading_ws t = [] ->
  (bullets (w ++ t) = w ++ bullets t
   /\ endswith w [SP] && startswith t BULLET = false)
  \/ (exists w' t', w = w' ++ [SP] /\ t = BULLET ++ t'
                    /\ bullets (w ++ t) = w' ++ NEWLINE_BULLET ++ bullets t').
Proof.
  intros Hw Ht. induction w as [|c w IH].
  - left. split; reflexivity.
  - cbn [forallb] in Hw. apply andb_true_iff in Hw as [Hc Hw].
    specialize (IH Hw).
    destruct (startswith ((c :: w) ++ t) SEPARATOR) eqn:E.
    + right. apply startswith_prefix in E as [r E].
      rewrite SEPARATOR_eq in E. simpl in E. injection E as -> E.
      destruct w as [|d w].
      * simpl in E. subst t. exists [], r. split; [reflexivity|].
        split; [reflexivity|].
        rewrite bullets_scan, replace_scan_hit; [reflexivity | discriminate |].
        reflexivity.
      * simpl in E. injection E as -> _. simpl in Hw. discriminate Hw.
    + rewrite !bullets_scan in *. change ((c :: w) ++ t) with (c :: (w ++ t)) in *.
      rewrite replace_scan_miss by exact E.
      destruct IH as [[IH Hno] | [w' [t' [-> [-> IH]]]]].
      * left. split; [now rewrite IH|].
        destruct w as [|d w]; [|
          change (c :: d :: w) with ([c] ++ d :: w);
          now rewrite endswith_app_single by discriminate].
        cbn [app] in E. rewrite SEPARATOR_eq in E. cbn [startswith] in E.
        rewrite BULLET_eq. cbn [startswith].
        unfold endswith. cbn [rev app startswith].
        destruct (N.eqb SP c); [exact E | reflexivity].
      * right. exists (c :: w'), t'. split; [reflexivity|].
        split; [reflexivity|]. now rewrite IH.
Qed.

(** C10, counterexample.  The input " - a" contains the separator and its
    replaced text starts with "- " once stripped, yet the space it began
    with has become a line feed: the leading white space is not the
    original one. *)
Lemma format_bullets_leading_space_replaced :
  str_contains SEPARATOR (py " - a") = true
  /\ startswith (lstrip (bullets (py " - a"))) BULLET = true
  /\ _format_one_line_bullets (str " - a") = PStr (LF :: py "- a")
  /\ leading_ws (py " - a") = [SP]
  /\ leading_ws (LF :: py "- a") = [LF]
  /\ leading_ws (LF :: py "- a") <> leading_ws (py " - a").
Proof. repeat split; try by_evaluation. discriminate. Qed.

(** C10, amended.  For an input that contains the separator " - ": when the
    replaced text does not start with "- " once its leading white space is
    stripped, the result is "- " followed by the stripped text, which is the
    replaced text of the stripped input, so the leading white space of the
    input is gone; when it does, the replaced text is returned unstripped,
    and its leading white space is that of the input, except that a final
    space directly followed by "- " belongs to a separator and has become a
    line feed. *)
Theorem format_bullets_leading_whitespace (s : pystr) :
  str_contains SEPARATOR s = true ->
  (startswith (lstrip (bullets s)) BULLET = false ->
     _format_one_line_bullets (PStr s) = PStr (BULLET ++ lstrip (bullets s))
     /\ lstrip (bullets s) = bullets (lstrip s))
  /\ (startswith (lstrip (bullets s)) BULLET = true ->
     _format_one_line_bullets (PStr s) = PStr (bullets s)
     /\ (if endswith (leading_ws s) [SP] && startswith (lstrip s) BULLET
         then exists w, leading_ws s = w ++ [SP]
                        /\ leading_ws (bullets s) = w ++ [LF]
         else leading_ws (bullets s) = leading_ws s)).
Proof.
  intros Hsep.
  assert (Hfmt : _format_one_line_bullets (PStr s)
                 = if negb (startswith (lstrip (bullets s)) BULLET)
                   then PStr (BULLET ++ lstrip (bullets s))
                   else PStr (bullets s)).
  { unfold _format_one_line_bullets. rewrite Hsep.
    destruct s; [discriminate Hsep | reflexivity]. }
  assert (Hws : forallb is_space (leading_ws s) = true)
    by apply leading_ws_all_space.
  assert (Hrest : leading_ws (lstrip s) = []).
  { destruct (lstrip s) as [|c t] eqn:E; [reflexivity|].
    simpl. now rewrite (lstrip_head_not_space _ E). }
  pose proof (bullets_leading_ws _ _ Hws Hrest) as Hscan.
  rewrite <- leading_ws_lstrip in Hscan.
  split; intros Hb; rewrite Hfmt, Hb; cbn [negb]; (split; [reflexivity|]).
  - destruct Hscan as [[Heq _] | [w' [t' [Hw [_ Heq]]]]].
    + rewrite Heq. apply lstrip_app; [exact Hws|].
      now apply bullets_no_leading_ws.
    + exfalso. rewrite Heq in Hb.
      change (w' ++ NEWLINE_BULLET ++ bullets t')
        with (w' ++ [LF] ++ BULLET ++ bullets t') in Hb.
      rewrite app_assoc in Hb.
      rewrite lstrip_app in Hb.
      * rewrite startswith_app_l in Hb. discriminate.
      * rewrite Hw in Hws. rewrite forallb_app in *.
        apply andb_true_iff in Hws as [Hw' _]. now rewrite Hw'.
      * reflexivity.
  - destruct Hscan as [[Heq Hno] | [w' [t' [Hw [Ht Heq]]]]].
    + rewrite Hno. rewrite Heq. apply leading_ws_app; [exact Hws|].
      now apply bullets_no_leading_ws.
    + rewrite Hw, Ht. rewrite endswith_snoc, startswith_app_l.
      change (N.eqb SP SP && true) with true. cbv iota.
      exists w'. split; [reflexivity|].
      rewrite Heq.
      change (w' ++ NEWLINE_BULLET ++ bullets t')
        with (w' ++ [LF] ++ BULLET ++ bullets t').
      rewrite app_assoc. apply leading_ws_app; [|reflexivity].
      rewrite Hw in Hws. rewrite forallb_app in *.
      apply andb_true_iff in Hws as [Hw' _]. now rewrite Hw'.
Qed.

(** The example of the claim, and an input of the second kind, which
    begins with a tabulation. *)
Lemma format_bullets_leading_whitespace_witness :
  (str_contains SEPARATOR (py "  intro - a") = true
   /\ startswith (lstrip (bullets (py "  intro - a"))) BULLET = false
   /\ _format_one_line_bullets (str "  intro - a")
      = PStr (py "- intro" ++ LF :: py "- a"))
  /\ (str_contains SEPARATOR (9%N :: py "- a - b") = true
      /\ startswith (lstrip (bullets (9%N :: py "- a - b"))) BULLET = true
      /\ leading_ws (bullets (9%N :: py "- a - b"))
         = leading_ws (9%N :: py "- a - b")).
Proof.
  split; (split; [reflexivity | split; [reflexivity|]]).
  - apply (format_bullets_leading_whitespace (py "  intro - a")); reflexivity.
  - apply (format_bullets_leading_whitespace (9%N :: py "- a - b")); reflexivity.
Defined.

(* ================================================================== *)
(** ** The de-duplication loop *)
(* ================================================================== *)

Lemma hkey_eqb_eq (a b : hkey) : hkey_eqb a b = true <-> a = b.
Proof.
  destruct a as [|x|x], b as [|y|y]; simpl; split;
    try congruence; try reflexivity; intros H.
  - apply Z.eqb_eq in H. congruence.
  - injection H as ->. apply Z.eqb_refl.
  - apply str_eqb_eq in H. congruence.
  - injection H as ->. apply str_eqb_refl.
Qed.

Lemma seen_mem_in (k : hkey) (seen : list hkey) :
  seen_mem k seen = true <-> In k seen.
Proof.
  unfold seen_mem. rewrite existsb_exists. split.
  - intros [y [Hy E]]. apply hkey_eqb_eq in E. now subst y.
  - intros H. exists k. split; [exact H | now apply hkey_eqb_eq].
Qed.

Lemma stable_dedup_nil : stable_dedup_of [] [].
Proof.
  split; [constructor | split].
  - intros x [].
  - intros l1 x l2 H. destruct l1; discriminate.
Qed.

(** Every entry of the result is one of the candidates. *)
Lemma stable_dedup_incl (cands out : list pyval) :
  stable_dedup_of cands out -> incl out cands.
Proof.
  intros [_ [_ Hord]] z Hz. apply in_split in Hz as [l1 [l2 ->]].
  destruct (Hord l1 z l2 eq_refl) as [c1 [c2 [-> _]]].
  apply in_or_app. right. now left.
Qed.

(** A candidate whose value was seen leaves the result as it is. *)
Lemma stable_dedup_skip (pre out : list pyval) (x : pyval) :
  stable_dedup_of pre out ->
  (exists y, In y pre /\ same_value x y) ->
  stable_dedup_of (pre ++ [x]) out.
Proof.
  intros [Hnd [Hall Hord]] [y [Hy Hxy]]. split; [exact Hnd | split].
  - intros x' Hx'. apply in_app_or in Hx' as [Hx' | [<- | []]].
    + now apply Hall.
    + destruct (Hall y Hy) as [z [Hz Hyz]]. exists z. split; [exact Hz|].
      unfold same_value in *. congruence.
  - intros l1 e l2 E. destruct (Hord l1 e l2 E) as [c1 [c2 [-> [Hfirst Hincl]]]].
    exists c1, (c2 ++ [x]). split; [|split; assumption].
    now rewrite <- app_assoc.
Qed.

(** A candidate with a new value goes to the end of the result. *)
Lemma stable_dedup_push (pre out : list pyval) (x : pyval) :
  stable_dedup_of pre out ->
  (forall y, In y pre -> ~ same_value x y) ->
  stable_dedup_of (pre ++ [x]) (out ++ [x]).
Proof.
  intros Hst Hnew. pose proof (stable_dedup_incl Hst) as Hincl.
  destruct Hst as [Hnd [Hall Hord]]. split; [|split].
  - rewrite map_app. apply NoDup_app; [exact Hnd | repeat constructor; intros [] |].
    intros k Hk [<- | []]. apply in_map_iff in Hk as [z [Hz Hin]].
    apply (Hnew z); [now apply Hincl | now symmetry].
  - intros x' Hx'. apply in_app_or in Hx' as [Hx' | [<- | []]].
    + destruct (Hall x' Hx') as [z [Hz Hxz]]. exists z.
      split; [apply in_or_app; now left | exact Hxz].
    + exists x. split; [apply in_or_app; right; now left | reflexivity].
  - intros l1 e l2 E. destruct l2 as [|b l2].
    + apply app_inj_tail in E as [-> ->].
      exists pre, []. split; [reflexivity | split; assumption].
    + destruct (@exists_last _ (b :: l2)) as [l2' [z E2]]; [discriminate|].
      rewrite E2 in E. rewrite app_comm_cons, app_assoc in E.
      apply app_inj_tail in E as [-> ->].
      destruct (Hord l1 e l2' eq_refl) as [c1 [c2 [-> [Hfirst Hl1]]]].
      exists c1, (c2 ++ [z]). split; [|split; assumption].
      now rewrite <- app_assoc.
Qed.

(** The loop keeps the first occurrence of every value, in order. *)
Lemma dedup_loop_stable (xs pre : list pyval) (seen : list hkey)
      (out res : list pyval) :
  (forall k, In k seen <-> exists y, In y pre /\ hash_key y = Some k) ->
  stable_dedup_of pre out ->
  dedup_loop xs seen out = Ok res ->
  stable_dedup_of (pre ++ xs) res.
Proof.
  revert pre seen out. induction xs as [|x xs IH]; intros pre seen out Hseen Hst Hrun.
  - simpl in Hrun. injection Hrun as <-. now rewrite app_nil_r.
  - simpl in Hrun. destruct (hash_key x) as [k|] eqn:Hk; [|discriminate].
    replace (pre ++ x :: xs) with ((pre ++ [x]) ++ xs)
      by (now rewrite <- app_assoc).
    destruct (seen_mem k seen) eqn:Hmem.
    + apply seen_mem_in, Hseen in Hmem as [y [Hy Hyk]].
      apply (IH (pre ++ [x]) seen out); [| |exact Hrun].
      * intros k'. rewrite Hseen. split.
        -- intros [z [Hz Hzk]]. exists z. split; [apply in_or_app; now left | exact Hzk].
        -- intros [z [Hz Hzk]]. apply in_app_or in Hz as [Hz | [<- | []]].
           ++ now exists z.
           ++ exists y. split; [exact Hy | congruence].
      * apply stable_dedup_skip; [exact Hst|].
        exists y. split; [exact Hy | unfold same_value; congruence].
    + assert (Hnew : forall y, In y pre -> ~ same_value x y).
      { intros y Hy Hxy. unfold same_value in Hxy. rewrite Hk in Hxy.
        assert (In k seen) by (apply Hseen; exists y; split; [exact Hy | now symmetry]).
        apply seen_mem_in in H. congruence. }
      apply (IH (pre ++ [x]) (k :: seen) (out ++ [x])); [| |exact Hrun].
      * intros k'. split.
        -- intros [<- | Hin].
           ++ exists x. split; [apply in_or_app; right; now left | exact Hk].
           ++ apply Hseen in Hin as [z [Hz Hzk]].
              exists z. split; [apply in_or_app; now left | exact Hzk].
        -- intros [z [Hz Hzk]]. apply in_app_or in Hz as [Hz | [<- | []]].
           ++ right. apply Hseen. now exists z.
           ++ left. congruence.
      * now apply stable_dedup_push.
Qed.

Lemma dedup_stable (xs res : list pyval) :
  dedup xs = Ok res -> stable_dedup_of xs res.
Proof.
  intros H. apply (@dedup_loop_stable xs [] [] [] res).
  - intros k. split; [intros [] | intros [y [[] _]]].
  - apply stable_dedup_nil.
  - exact H.
Qed.

(** Membership in [seen] is by value: [1] after [True] and [False] after
    [0] are duplicates, and the first one seen is the one kept. *)
Example dedup_by_value :
  dedup [PBool true; PInt 1; str "a"; PInt 0; PBool false; PNone; str "a"]
  = Ok [PBool true; str "a"; PInt 0; PNone].
Proof. by_evaluation. Qed.

(** On texts the loop cannot raise, and it returns texts. *)
Lemma dedup_loop_strs (names : list pystr) (seen : list hkey) (out : list pystr) :
  exists names',
    dedup_loop (map PStr names) seen (map PStr out) = Ok (map PStr names').
Proof.
  revert seen out. induction names as [|n names IH]; intros seen out.
  - now exists out.
  - simpl. destruct (seen_mem (KStr n) seen).
    + apply IH.
    + replace (map PStr out ++ [PStr n]) with (map PStr (out ++ [n]))
        by (now rewrite map_app).
      apply IH.
Qed.

(* ================================================================== *)
(** ** The file-name extractor returns texts ending with ".pdf" *)
(* ================================================================== *)

Lemma is_pdf_name_true (name : pyval) :
  is_pdf_name name = Ok true ->
  exists s, name = PStr s /\ endswith (str_lower s) (py ".pdf") = true.
Proof.
  unfold is_pdf_name. destruct (truthy name); [|discriminate].
  destruct name; simpl; try discriminate.
  intros H. injection H as H. eexists. split; [reflexivity | exact H].
Qed.

Lemma filenames_loop_pdf (refs : list pyval) (names : list pystr) :
  Forall (fun n => endswith (str_lower n) (py ".pdf") = true) names ->
  exists names',
    fst (filenames_loop refs (map PStr names)) = map PStr names'
    /\ Forall (fun n => endswith (str_lower n) (py ".pdf") = true) names'.
Proof.
  revert names. induction refs as [|ref refs IH]; intros names Hn.
  - now exists names.
  - cbn [filenames_loop]. unfold filename_turn.
    destruct (pdf_name_of_reference ref) as [name|e]; [|now exists names].
    cbn [bind]. destruct (is_pdf_name name) as [[|]|e] eqn:Hk;
      cbn [bind]; [| now apply IH | now exists names].
    apply is_pdf_name_true in Hk as [s [-> Hs]].
    replace (map PStr names ++ [PStr s]) with (map PStr (names ++ [s]))
      by (now rewrite map_app).
    apply IH. apply Forall_app. split; [exact Hn | now constructor].
Qed.

Lemma collect_filenames_pdf (rag_response : pyval) :
  exists names,
    fst (collect_filenames rag_response) = map PStr names
    /\ Forall (fun n => endswith (str_lower n) (py ".pdf") = true) names.
Proof.
  unfold collect_filenames.
  destruct (refs <- retrieved_references rag_response ;; py_iter refs) as [refs|e].
  - apply (filenames_loop_pdf refs (names := [])). constructor.
  - exists []. split; [reflexivity | constructor].
Qed.

Lemma extract_pdf_unfold (rag_response : pyval) :
  _extract_pdf_filenames_from_citations rag_response
  = dedup (fst (collect_filenames rag_response)).
Proof.
  unfold _extract_pdf_filenames_from_citations.
  now destruct (collect_filenames rag_response).
Qed.

Lemma extract_titles_unfold (rag_response : pyval) :
  _extract_document_titles_from_citations rag_response
  = dedup (fst (collect_titles rag_response)).
Proof.
  unfold _extract_document_titles_from_citations.
  now destruct (collect_titles rag_response).
Qed.

(** The file-name extractor never raises: it returns a list of texts, each
    of which passed the test of line 156. *)
Lemma extract_pdf_total (rag_response : pyval) :
  exists names,
    _extract_pdf_filenames_from_citations rag_response = Ok (map PStr names)
    /\ Forall (fun n => endswith (str_lower n) (py ".pdf") = true) names.
Proof.
  rewrite extract_pdf_unfold.
  destruct (collect_filenames_pdf rag_response) as [cands [Hc Hpdf]].
  rewrite Hc. destruct (dedup_loop_strs cands [] []) as [names Hd].
  exists names. split; [exact Hd|].
  apply dedup_stable, stable_dedup_incl in Hd.
  apply Forall_forall. intros n Hn.
  assert (Hin : In (PStr n) (map PStr cands)) by (apply Hd; now apply in_map).
  apply in_map_iff in Hin as [m [E Hm]]. injection E as ->.
  rewrite Forall_forall in Hpdf. now apply Hpdf.
Qed.

(** *** Lower case *)

Lemma lower_cp_inv (x y : N) :
  lower_cp x = y ->
  x = y \/ ((x + 32 = y)%N /\ ((65 <= x <= 90)%N \/ (192 <= x <= 222)%N)).
Proof.
  unfold lower_cp.
  destruct ((65 <=? x)%N && (x <=? 90)%N
            || (192 <=? x)%N && (x <=? 222)%N && negb (x =? 215)%N) eqn:E.
  - intros H. right. split; [exact H|].
    apply orb_true_iff in E as [E|E].
    + apply andb_true_iff in E as [E1 E2].
      apply N.leb_le in E1, E2. left. lia.
    + apply andb_true_iff in E as [E _]. apply andb_true_iff in E as [E1 E2].
      apply N.leb_le in E1, E2. right. lia.
  - intros H. now left.
Qed.

(** The test of line 156 holds exactly for the names ending with ".pdf" in
    some mix of cases. *)
Lemma lower_endswith_pdf_ci (name : pystr) :
  endswith (str_lower name) (py ".pdf") = true -> ends_with_pdf_ci name.
Proof.
  unfold endswith, str_lower. rewrite <- map_rev.
  change (rev (py ".pdf")) with [102; 100; 112; 46]%N.
  intros H. apply startswith_prefix in H as [t H].
  destruct (rev name) as [|f [|d [|p [|dot r]]]] eqn:E; try discriminate H.
  simpl in H. injection H as Hf Hd Hp Hdot _.
  exists (rev r), p, d, f.
  assert (En : name = rev r ++ [dot; p; d; f]).
  { rewrite <- (rev_involutive name), E. simpl. now rewrite <- !app_assoc. }
  apply lower_cp_inv in Hf, Hd, Hp, Hdot.
  assert (dot = 46%N) by lia. subst dot.
  split; [exact En|]. repeat split; lia.
Qed.

(** C2. For every input the file-name extractor returns texts only, and
    every one of them ends with ".pdf" when case is ignored: its lower-cased
    form ends with ".pdf", that is, its last four characters are "." and the
    letters p, d, f in either case.  A name that fails this is not in the
    result. *)
Theorem extract_pdf_only_pdf (rag_response : pyval) :
  exists names,
    _extract_pdf_filenames_from_citations rag_response = Ok (map PStr names)
    /\ Forall (fun n => endswith (str_lower n) (py ".pdf") = true
                        /\ ends_with_pdf_ci n) names.
Proof.
  destruct (extract_pdf_total rag_response) as [names [H Hpdf]].
  exists names. split; [exact H|].
  eapply Forall_impl; [|exact Hpdf].
  intros n Hn. split; [exact Hn | now apply lower_endswith_pdf_ci].
Qed.

(** C3. Whenever an extractor returns a list, the list is the stable
    de-duplication of the values collected from the traversed references:
    no value occurs twice, every collected value occurs, and each entry is
    the first occurrence of its value, after the first occurrences of the
    entries before it.  The file-name extractor always returns. *)
Theorem extractors_stable_dedup (rag_response : pyval) :
  (forall titles,
      _extract_document_titles_from_citations rag_response = Ok titles ->
      stable_dedup_of (fst (collect_titles rag_response)) titles)
  /\ (exists names,
         _extract_pdf_filenames_from_citations rag_response = Ok (map PStr names)
         /\ stable_dedup_of (fst (collect_filenames rag_response)) (map PStr names)
         /\ NoDup names).
Proof.
  split.
  - intros titles H. rewrite extract_titles_unfold in H. now apply dedup_stable.
  - destruct (extract_pdf_total rag_response) as [names [H _]].
    exists names. split; [exact H|].
    rewrite extract_pdf_unfold in H. apply dedup_stable in H.
    split; [exact H|].
    destruct H as [Hnd _]. rewrite map_map in Hnd.
    now apply NoDup_map_inv in Hnd.
Qed.

(** A witness of C3 on the title side: two references share the title "a". *)
Lemma extractors_stable_dedup_witness :
  _extract_document_titles_from_citations
    (mapping_shape
       [dict1 "metadata" (dict1 "x-amz-bedrock-kb-document-title" (str "a"));
        dict1 "metadata" (dict1 "x-amzn-bedrock-kb-doc-title" (str "b"));
        dict1 "location" (dict1 "s3Location" (dict1 "uri" (str "s3://kb/a")))])
  = Ok [str "a"; str "b"]
  /\ stable_dedup_of [str "a"; str "b"; str "a"] [str "a"; str "b"].
Proof.
  split; [reflexivity|].
  apply (extractors_stable_dedup
           (mapping_shape
              [dict1 "metadata" (dict1 "x-amz-bedrock-kb-document-title" (str "a"));
               dict1 "metadata" (dict1 "x-amzn-bedrock-kb-doc-title" (str "b"));
               dict1 "location" (dict1 "s3Location" (dict1 "uri" (str "s3://kb/a")))])).
  reflexivity.
Defined.

(* ================================================================== *)
(** ** The two shapes of "citations" *)
(* ================================================================== *)

Lemma extend_refs_groups (groups : list (list pyval)) (acc : list pyval) :
  extend_refs (map (fun L => dict1 "retrievedReferences" (PList L)) groups) acc
  = Ok (acc ++ concat groups).
Proof.
  revert acc. induction groups as [|L groups IH]; intros acc.
  - simpl. now rewrite app_nil_r.
  - cbn [map extend_refs].
    change (py_get (py_or (dict1 "retrievedReferences" (PList L)) empty_dict)
                   (py "retrievedReferences") empty_list)
      with (Ok (PList L)).
    cbn [bind py_iter]. rewrite IH. cbn [concat]. now rewrite app_assoc.
Qed.

Lemma retrieved_references_mapping (L : list pyval) :
  retrieved_references (mapping_shape L) = Ok (PList L).
Proof. reflexivity. Qed.

Lemma retrieved_references_sequence (groups : list (list pyval)) :
  retrieved_references (sequence_shape groups) = Ok (PList (concat groups)).
Proof.
  unfold retrieved_references, sequence_shape.
  change (py_get (py_or (response ?c) empty_dict) (py "citations") empty_list)
    with (Ok c).
  cbn [bind]. now rewrite extend_refs_groups.
Qed.

(** C4. Both extractors return the same on the mapping shape
    [{"citations": {"retrievedReferences": L}}] and on the sequence shape
    [{"citations": [{"retrievedReferences": L}]}], and more generally on the
    sequence shape whose groups concatenate to [L]. *)
Theorem shape_equivalence :
  (forall L,
      _extract_document_titles_from_citations (sequence_shape [L])
      = _extract_document_titles_from_citations (mapping_shape L)
      /\ _extract_pdf_filenames_from_citations (sequence_shape [L])
         = _extract_pdf_filenames_from_citations (mapping_shape L))
  /\ (forall groups,
         _extract_document_titles_from_citations (sequence_shape groups)
         = _extract_document_titles_from_citations (mapping_shape (concat groups))
         /\ _extract_pdf_filenames_from_citations (sequence_shape groups)
            = _extract_pdf_filenames_from_citations (mapping_shape (concat groups))).
Proof.
  assert (H : forall groups,
             _extract_document_titles_from_citations (sequence_shape groups)
             = _extract_document_titles_from_citations (mapping_shape (concat groups))
             /\ _extract_pdf_filenames_from_citations (sequence_shape groups)
                = _extract_pdf_filenames_from_citations (mapping_shape (concat groups))).
  { intros groups.
    unfold _extract_document_titles_from_citations,
      _extract_pdf_filenames_from_citations, collect_titles, collect_filenames.
    now rewrite retrieved_references_sequence, retrieved_references_mapping. }
  split; [|exact H].
  intros L. specialize (H [L]). cbn [concat] in H. now rewrite app_nil_r in H.
Qed.

(* ================================================================== *)
(** ** Exceptions that leave the extractors *)
(* ================================================================== *)

(** The de-duplication loop returns exactly when every value is hashable. *)
Lemma dedup_loop_returns (xs : list pyval) (seen : list hkey) (out : list pyval) :
  (exists res, dedup_loop xs seen out = Ok res)
  <-> Forall (fun t => hash_key t <> None) xs.
Proof.
  revert seen out. induction xs as [|x xs IH]; intros seen out.
  - split; [constructor | intros _; now exists out].
  - simpl. destruct (hash_key x) as [k|] eqn:Hk.
    + destruct (seen_mem k seen); rewrite IH; split.
      * intros H. constructor; [congruence | exact H].
      * intros H. now inversion H.
      * intros H. constructor; [congruence | exact H].
      * intros H. now inversion H.
    + split.
      * intros [res H]. discriminate.
      * intros H. inversion H. congruence.
Qed.

(** C1. The title extractor raises on a response it can receive: a
    reference whose document title is a list passes the [try] block, and the
    de-duplication loop after it raises [TypeError] on [t not in seen].  It
    returns exactly when every collected title is hashable.  The file-name
    extractor returns a list of texts for every input. *)
Theorem extract_titles_raises_on_list_title :
  _extract_document_titles_from_citations (mapping_shape [list_title_reference])
  = Raise TypeError
  /\ (forall rag_response,
         (exists titles,
             _extract_document_titles_from_citations rag_response = Ok titles)
         <-> Forall (fun t => hash_key t <> None)
                    (fst (collect_titles rag_response)))
  /\ (forall rag_response,
         exists names,
           _extract_pdf_filenames_from_citations rag_response
           = Ok (map PStr names)).
Proof.
  split; [reflexivity | split].
  - intros r. rewrite extract_titles_unfold. apply dedup_loop_returns.
  - intros r. destruct (extract_pdf_total r) as [names [H _]]. now exists names.
Qed.

(* ================================================================== *)
(** ** The name taken from the location *)
(* ================================================================== *)

Lemma existsb_slash_false (s : pystr) :
  existsb (N.eqb SLASH) s = false -> ~ In SLASH s.
Proof.
  intros H Hin.
  assert (existsb (N.eqb SLASH) s = true)
    by (apply existsb_exists; exists SLASH; split; [exact Hin | apply N.eqb_refl]).
  congruence.
Qed.

Lemma basename_final_segment (u : pystr) : final_segment u (basename u).
Proof.
  induction u as [|c u [Hno IH]]; [split; [intros [] | now left]|].
  cbn [basename]. destruct (existsb (N.eqb SLASH) u) eqn:E.
  - split; [exact Hno|]. right. destruct IH as [IH | [dir IH]].
    + exfalso. apply existsb_exists in E as [x [Hx Ex]].
      apply N.eqb_eq in Ex. subst x. rewrite <- IH in Hno. contradiction.
    + exists (c :: dir). simpl. now rewrite <- IH.
  - apply existsb_slash_false in E.
    destruct (N.eqb c SLASH) eqn:Ec.
    + apply N.eqb_eq in Ec. subst c. split; [exact E|]. right. now exists [].
    + apply N.eqb_neq in Ec. split; [|now left].
      intros [H | H]; [congruence | contradiction].
Qed.

Lemma before_qmark_without_query (seg : pystr) :
  without_query seg (before_qmark seg).
Proof.
  induction seg as [|c seg [Hno IH]]; [split; [intros [] | now left]|].
  cbn [before_qmark]. destruct (N.eqb c QMARK) eqn:Ec.
  - apply N.eqb_eq in Ec. subst c. split; [intros [] |]. right. now exists seg.
  - apply N.eqb_neq in Ec. split.
    + intros [H | H]; [congruence | contradiction].
    + destruct IH as [IH | [q IH]].
      * left. now rewrite <- IH.
      * right. exists q. simpl. now rewrite <- IH.
Qed.

(** *** When the location supplies a URI or URL

    [location_candidate] is the storage URI when the reference holds one,
    and the web URL when it holds no storage location. *)

Lemma dict_find_some_truthy (entries : list (pyval * pyval)) (key : pystr) (v : pyval) :
  dict_find entries key = Some v -> py_or (PDict entries) empty_dict = PDict entries.
Proof. destruct entries; [discriminate | reflexivity]. Qed.

Lemma py_get_found (entries : list (pyval * pyval)) (key : pystr) (v d : pyval) :
  dict_find entries key = Some v -> py_get (PDict entries) key d = Ok v.
Proof. intros H. simpl. now rewrite H. Qed.

Lemma py_get_missing (entries : list (pyval * pyval)) (key : pystr) (d : pyval) :
  dict_find entries key = None -> py_get (PDict entries) key d = Ok d.
Proof. intros H. simpl. now rewrite H. Qed.

Lemma location_candidate_storage_uri
      (entries loc s3 : list (pyval * pyval)) (u : pystr) :
  dict_find entries (py "location") = Some (PDict loc) ->
  dict_find loc (py "s3Location") = Some (PDict s3) ->
  dict_find s3 (py "uri") = Some (PStr u) ->
  u <> [] ->
  dict_find loc (py "webLocation") = None
  \/ (exists web, dict_find loc (py "webLocation") = Some (PDict web)) ->
  location_candidate (PDict entries) = Ok (PStr u).
Proof.
  intros Hloc Hs3 Huri Hu Hweb. unfold location_candidate.
  rewrite (@dict_find_some_truthy _ _ _ Hloc), (@py_get_found _ _ _ _ Hloc). cbn [bind].
  rewrite (@dict_find_some_truthy _ _ _ Hs3), (@py_get_found _ _ _ _ Hs3). cbn [bind].
  rewrite (@dict_find_some_truthy _ _ _ Huri), (@py_get_found _ _ _ _ Huri). cbn [bind].
  assert (Hor : forall w, py_or (PStr u) w = PStr u)
    by (intros w; destruct u; [congruence | reflexivity]).
  destruct Hweb as [Hweb | [web Hweb]].
  - cbn [py_get]. rewrite Hweb. cbn [bind py_or truthy empty_dict py_get dict_find].
    now rewrite Hor.
  - rewrite (@py_get_found _ _ _ _ Hweb). cbn [bind].
    destruct web; cbn [py_or truthy empty_dict py_get bind]; now rewrite Hor.
Qed.

Lemma location_candidate_web_url
      (entries loc web : list (pyval * pyval)) (u : pystr) :
  dict_find entries (py "location") = Some (PDict loc) ->
  dict_find loc (py "s3Location") = None ->
  dict_find loc (py "webLocation") = Some (PDict web) ->
  dict_find web (py "url") = Some (PStr u) ->
  u <> [] ->
  location_candidate (PDict entries) = Ok (PStr u).
Proof.
  intros Hloc Hs3 Hweb Hurl Hu. unfold location_candidate.
  rewrite (@dict_find_some_truthy _ _ _ Hloc), (@py_get_found _ _ _ _ Hloc).
  cbn [bind]. cbv zeta. rewrite (@dict_find_some_truthy _ _ _ Hweb).
  rewrite (@py_get_missing _ _ empty_dict Hs3). cbn [bind].
  change (py_get (py_or empty_dict empty_dict) (py "uri") PNone) with (Ok PNone).
  cbn [bind].
  rewrite (@py_get_found _ _ _ _ Hweb). cbn [bind].
  rewrite (@dict_find_some_truthy _ _ _ Hurl), (@py_get_found _ _ _ _ Hurl).
  cbn [bind]. destruct u; [congruence | reflexivity].
Qed.

(** C7, counterexample.  The location of [folder_reference] supplies the
    storage URI "s3://bucket/dir/", whose final path segment is empty; the
    name the function uses for the reference is the file name of the
    metadata, and it is returned. *)
Lemma pdf_name_falls_back_to_metadata :
  location_candidate folder_reference = Ok (str "s3://bucket/dir/")
  /\ final_segment (py "s3://bucket/dir/") []
  /\ without_query [] []
  /\ pdf_name_of_reference folder_reference = Ok (str "x.pdf")
  /\ pdf_name_of_reference folder_reference <> Ok (PStr [])
  /\ _extract_pdf_filenames_from_citations (mapping_shape [folder_reference])
     = Ok [str "x.pdf"].
Proof.
  split; [reflexivity | split; [|split; [|split; [reflexivity | split]]]].
  - split; [intros [] |]. right. now exists (py "s3://bucket/dir").
  - split; [intros [] | now left].
  - discriminate.
  - reflexivity.
Qed.

(** C7, amended.  For every reference whose location supplies a storage URI
    or web URL (a non-empty text), the name taken from it is the final path
    segment of that text, cut before its first "?"; when this name is not
    empty it is the candidate that line 156 tests, whatever the metadata
    holds; when it is empty the metadata keys supply the candidate.  For the
    citations of Scenario B the function returns exactly ["Report.PDF"]. *)
Theorem pdf_name_from_location :
  (forall ref u,
      location_candidate ref = Ok (PStr u) -> u <> [] ->
      final_segment u (basename u)
      /\ without_query (basename u) (before_qmark (basename u))
      /\ name_from_location (PStr u) = PStr (before_qmark (basename u))
      /\ (before_qmark (basename u) <> [] ->
          pdf_name_of_reference ref = Ok (PStr (before_qmark (basename u))))
      /\ (before_qmark (basename u) = [] ->
          pdf_name_of_reference ref = metadata_name ref))
  /\ _extract_pdf_filenames_from_citations
       (response (PList [dict1 "retrievedReferences" (PList [scenario_B_reference])]))
     = Ok [str "Report.PDF"].
Proof.
  split; [|reflexivity].
  intros ref u Hloc Hu.
  split; [apply basename_final_segment|].
  split; [apply before_qmark_without_query|].
  split; [reflexivity|].
  unfold pdf_name_of_reference. rewrite Hloc. cbn [bind].
  destruct u as [|c u]; [congruence|]. cbn [truthy].
  unfold name_from_location. cbn [path_name try_except].
  split; intros Hn.
  - destruct (before_qmark (basename (c :: u))); [congruence | reflexivity].
  - now rewrite Hn.
Qed.

(** The reference of Scenario B: its candidate is "Report.PDF". *)
Lemma pdf_name_from_location_witness :
  location_candidate scenario_B_reference
  = Ok (str "s3://bucket/path/Report.PDF?x=1")
  /\ pdf_name_of_reference scenario_B_reference = Ok (str "Report.PDF").
Proof.
  split; [reflexivity|].
  apply (proj1 pdf_name_from_location scenario_B_reference
               (py "s3://bucket/path/Report.PDF?x=1"));
    [reflexivity | discriminate | discriminate].
Defined.

(* ================================================================== *)
(** ** An exception ends the traversal *)
(* ================================================================== *)

Lemma titles_loop_stops (before after : list pyval) (bad : pyval) (e : exn)
      (titles : list pyval) :
  title_of_reference bad = Raise e ->
  fst (titles_loop (before ++ bad :: after) titles) = fst (titles_loop before titles).
Proof.
  intros Hbad. revert titles. induction before as [|ref before IH]; intros titles.
  - simpl. now rewrite Hbad.
  - simpl. destruct (title_of_reference ref); [apply IH | reflexivity].
Qed.

Lemma filenames_loop_stops (before after : list pyval) (bad : pyval) (e : exn)
      (filenames : list pyval) :
  filename_turn bad = Raise e ->
  fst (filenames_loop (before ++ bad :: after) filenames)
  = fst (filenames_loop before filenames).
Proof.
  intros Hbad. revert filenames. induction before as [|ref before IH]; intros filenames.
  - simpl. now rewrite Hbad.
  - simpl. destruct (filename_turn ref) as [[name keep]|]; [apply IH | reflexivity].
Qed.

(** The [try] block encloses the whole loop: a reference on which a turn
    raises ends the traversal, and the references after it contribute
    nothing; the result is that of the references before it. *)
Theorem traversal_stops_at_exception :
  (forall before bad after e,
      title_of_reference bad = Raise e ->
      _extract_document_titles_from_citations (mapping_shape (before ++ bad :: after))
      = _extract_document_titles_from_citations (mapping_shape before))
  /\ (forall before bad after e,
         filename_turn bad = Raise e ->
         _extract_pdf_filenames_from_citations (mapping_shape (before ++ bad :: after))
         = _extract_pdf_filenames_from_citations (mapping_shape before)).
Proof.
  split; intros before bad after e Hbad.
  - rewrite !extract_titles_unfold. unfold collect_titles.
    rewrite !retrieved_references_mapping. cbn [bind py_iter].
    now rewrite (@titles_loop_stops before after bad e [] Hbad).
  - rewrite !extract_pdf_unfold. unfold collect_filenames.
    rewrite !retrieved_references_mapping. cbn [bind py_iter].
    now rewrite (@filenames_loop_stops before after bad e [] Hbad).
Qed.

(** A reference that is a text, between two well-formed ones: the file name
    of the last reference is lost. *)
Lemma traversal_stops_at_exception_witness :
  filename_turn (str "oops") = Raise AttributeError
  /\ _extract_pdf_filenames_from_citations
       (mapping_shape
          [scenario_B_reference; str "oops";
           dict1 "metadata" (dict1 "file_name" (str "Guide.pdf"))])
     = Ok [str "Report.PDF"].
Proof.
  split; [reflexivity|].
  exact (eq_trans
           (proj2 traversal_stops_at_exception [scenario_B_reference] (str "oops")
                  [dict1 "metadata" (dict1 "file_name" (str "Guide.pdf"))]
                  AttributeError eq_refl)
           eq_refl).
Defined.

(* ================================================================== *)
(** ** The scenarios of the specification, evaluated *)
(* ================================================================== *)

(** Scenarios A, C and E. *)
Theorem scenarios_A_C_E :
  _extract_pdf_filenames_from_citations
    (mapping_shape
       [dict1 "metadata" (dict1 "x-amz-bedrock-kb-document-title" (str "Guide.pdf"))])
  = Ok [str "Guide.pdf"]
  /\ _finalize_output (str "Point A - Point B - Point C") (PList [])
     = Ok (PStr (py "- Point A" ++ LF :: py "- Point B" ++ LF :: py "- Point C"
                   ++ [LF]))
  /\ _extract_document_titles_from_citations (PDict []) = Ok []
  /\ _extract_pdf_filenames_from_citations PNone = Ok [].
Proof. repeat split; by_evaluation. Qed.

(** Scenario D: the formatter joins the source names as they are given; it
    is the extractor that removes the duplicates. *)
Theorem finalize_keeps_duplicate_sources :
  _finalize_output (str "**Bold** text") (PList [str "a.pdf"; str "a.pdf"; str "b.pdf"])
  = Ok (PStr (py "Bold text" ++ PARAGRAPH_BREAK
                ++ py "Sources: a.pdf, a.pdf, b.pdf" ++ [LF])).
Proof. by_evaluation. Qed.

(* ================================================================== *)
(** ** The trailing line feed *)
(* ================================================================== *)

Lemma Forall_last (A : Type) (P : A -> Prop) (l : list A) (d : A) :
  Forall P l -> l <> [] -> P (last l d).
Proof.
  induction 1 as [|x l Hx Hl IH]; [congruence|]. intros _.
  destruct l as [|y l]; [exact Hx|]. apply IH. discriminate.
Qed.

(** A name that ends with ".pdf" does not end with a line feed. *)
Lemma pdf_name_no_newline (name : pystr) :
  ends_with_pdf_ci name -> endswith name [LF] = false.
Proof.
  intros [stem [p [d [f [-> [_ [_ Hf]]]]]]].
  change (stem ++ [46; p; d; f]%N) with (stem ++ [46; p; d]%N ++ [f]).
  rewrite app_assoc, endswith_snoc.
  apply N.eqb_neq. unfold LF. destruct Hf; subst f; discriminate.
Qed.

(** C5, amended.  For every body text and every list of source names the
    output ends with a line feed; it ends with two of them exactly when the
    last source name itself ends with a line feed, so never when there are no
    sources or the last name ends otherwise.  In particular the output for
    the names the file-name extractor returns, which is what the endpoints
    format, ends with exactly one line feed. *)
Theorem finalize_trailing_newline :
  (forall (body : pystr) (sources : list pystr),
      exists out,
        _finalize_output (PStr body) (PList (map PStr sources)) = Ok (PStr out)
        /\ endswith out [LF] = true
        /\ endswith out [LF; LF] = endswith (last sources []) [LF])
  /\ (forall (body : pystr) (rag_response : pyval),
         exists names out,
           _extract_pdf_filenames_from_citations rag_response = Ok (map PStr names)
           /\ _finalize_output (PStr body) (PList (map PStr names)) = Ok (PStr out)
           /\ endswith out [LF] = true
           /\ endswith out [LF; LF] = false).
Proof.
  split; [exact finalize_newlines|].
  intros body r.
  destruct (extract_pdf_total r) as [names [Hn Hpdf]].
  destruct (finalize_newlines body names) as [out [Hout [H1 H2]]].
  exists names, out. repeat split; try assumption.
  rewrite H2. destruct names as [|n names]; [reflexivity|].
  apply pdf_name_no_newline, lower_endswith_pdf_ci.
  apply (Forall_last (P := fun n => endswith (str_lower n) (py ".pdf") = true));
    [exact Hpdf | discriminate].
Qed.

(* ================================================================== *)
(** ** What the bullet formatting keeps *)
(* ================================================================== *)

Lemma bullets_hit (r : pystr) :
  bullets (SP :: HYPHEN :: SP :: r) = LF :: HYPHEN :: SP :: bullets r.
Proof.
  rewrite !bullets_scan.
  rewrite replace_scan_hit; [reflexivity | discriminate | reflexivity].
Qed.

Lemma bullets_miss (c : N) (s : pystr) :
  startswith (c :: s) SEPARATOR = false -> bullets (c :: s) = c :: bullets s.
Proof. intros H. rewrite !bullets_scan. now apply replace_scan_miss. Qed.

(** Induction along the scan for the separator. *)
Lemma separator_scan_ind (P : pystr -> Prop) :
  P [] ->
  (forall r, P r -> P (SP :: HYPHEN :: SP :: r)) ->
  (forall c s, startswith (c :: s) SEPARATOR = false -> P s -> P (c :: s)) ->
  forall s, P s.
Proof.
  intros Hnil Hhit Hmiss s.
  assert (H : forall n t, length t <= n -> P t).
  { induction n as [|n IH]; intros t Hlen.
    - destruct t; [exact Hnil | simpl in Hlen; lia].
    - destruct t as [|c t]; [exact Hnil|].
      destruct (startswith (c :: t) SEPARATOR) eqn:E.
      + apply startswith_prefix in E as [r E]. rewrite SEPARATOR_eq in E.
        simpl in E. rewrite E. apply Hhit. apply IH.
        rewrite E in Hlen. simpl in Hlen. lia.
      + apply Hmiss; [exact E|]. apply IH. simpl in Hlen. lia. }
  apply (H (length s)). lia.
Qed.

(** The replacement changes nothing but spaces, which become line feeds. *)
Lemma bullets_pointwise (s : pystr) : Forall2 kept_or_newline s (bullets s).
Proof.
  induction s as [| r IH | c s Hc IH] using separator_scan_ind.
  - constructor.
  - rewrite bullets_hit.
    constructor; [right; now split|].
    constructor; [now left|]. constructor; [now left | exact IH].
  - rewrite bullets_miss by exact Hc. constructor; [now left | exact IH].
Qed.

Lemma non_blank_pointwise (s r : pystr) :
  Forall2 kept_or_newline s r -> non_blank r = non_blank s.
Proof.
  induction 1 as [|a b s r Hab _ IH]; [reflexivity|].
  unfold non_blank in *. cbn [filter]. rewrite IH.
  destruct Hab as [-> | [-> ->]]; reflexivity.
Qed.

Lemma non_blank_lstrip (s : pystr) : non_blank (lstrip s) = non_blank s.
Proof.
  induction s as [|c s IH]; [reflexivity|].
  simpl. destruct (is_space c) eqn:E; [exact IH|].
  simpl. now rewrite E.
Qed.

Lemma Forall2_kept_refl (s : pystr) : Forall2 kept_or_newline s s.
Proof. induction s; constructor; [now left | assumption]. Qed.

Lemma lstrip_length (s : pystr) : length (lstrip s) <= length s.
Proof.
  induction s as [|c s IH]; [reflexivity|].
  simpl. destruct (is_space c); simpl; lia.
Qed.

(** The formatter loses no text.  For every text, the result is the input
    with some of its spaces turned into line feeds, either as it is or
    stripped of its leading white space and prefixed with "- ".  So the
    characters that are not white space are those of the input, in order,
    after at most one added hyphen, and the result is at most two
    characters longer. *)
Theorem format_bullets_keeps_text (s : pystr) :
  exists t r,
    _format_one_line_bullets (PStr s) = PStr t
    /\ Forall2 kept_or_newline s r
    /\ (t = r \/ t = BULLET ++ lstrip r)
    /\ (non_blank t = non_blank s \/ non_blank t = HYPHEN :: non_blank s)
    /\ length t <= length s + 2.
Proof.
  assert (Hcase :
            _format_one_line_bullets (PStr s) = PStr s
            \/ _format_one_line_bullets (PStr s) = PStr (bullets s)
            \/ _format_one_line_bullets (PStr s) = PStr (BULLET ++ lstrip (bullets s))).
  { unfold _format_one_line_bullets. destruct (negb (truthy (PStr s))); [now left|].
    destruct (str_contains SEPARATOR s); [|now left].
    cbv zeta. destruct (negb _); [right; now right | right; now left]. }
  pose proof (bullets_pointwise s) as Hb.
  pose proof (Forall2_length Hb) as Hlen.
  destruct Hcase as [H | [H | H]].
  - exists s, s. split; [exact H|]. split; [apply Forall2_kept_refl|].
    split; [now left|]. split; [now left | lia].
  - exists (bullets s), (bullets s). split; [exact H|]. split; [exact Hb|].
    split; [now left|]. split; [left; now apply non_blank_pointwise | lia].
  - exists (BULLET ++ lstrip (bullets s)), (bullets s).
    split; [exact H|]. split; [exact Hb|]. split; [now right|]. split.
    + right. rewrite BULLET_eq. unfold non_blank at 1. cbn [app filter is_space].
      change (filter (fun c => negb (is_space c)) (lstrip (bullets s)))
        with (non_blank (lstrip (bullets s))).
      now rewrite non_blank_lstrip, (non_blank_pointwise Hb).
    + rewrite BULLET_eq. cbn [app length].
      pose proof (lstrip_length (bullets s)). lia.
Qed.

(** A line feed written by the replacement is followed by "- ". *)
Lemma bullets_newline_bullet (s : pystr) (i : nat) :
  nth_error s i = Some SP ->
  nth_error (bullets s) i = Some LF ->
  nth_error (bullets s) (S i) = Some HYPHEN
  /\ nth_error (bullets s) (S (S i)) = Some SP.
Proof.
  revert i. induction s as [| r IH | c s Hc IH] using separator_scan_ind; intros i.
  - destruct i; discriminate.
  - rewrite bullets_hit. destruct i as [|[|[|i]]].
    + intros _ _. now split.
    + discriminate.
    + intros _ H. discriminate H.
    + cbn [nth_error]. apply IH.
  - rewrite bullets_miss by exact Hc. destruct i as [|i].
    + cbn [nth_error]. intros H1 H2. rewrite H1 in H2. discriminate H2.
    + cbn [nth_error]. apply IH.
Qed.

(** Bullets are one per line and start with "- ".  Where the separator
    occurs, the result is the replaced text, or the replaced text stripped
    of its leading white space and prefixed with "- ", and its first
    characters that are not white space are "- "; where it does not occur,
    the text is returned as it is.  Every space the replacement turns into a
    line feed is followed by "- ". *)
Theorem format_bullets_lines_start_with_bullet (s : pystr) :
  (if str_contains SEPARATOR s
   then exists t, _format_one_line_bullets (PStr s) = PStr t
                  /\ (t = bullets s \/ t = BULLET ++ lstrip (bullets s))
                  /\ startswith (lstrip t) BULLET = true
   else _format_one_line_bullets (PStr s) = PStr s)
  /\ (forall i,
         nth_error s i = Some SP ->
         nth_error (bullets s) i = Some LF ->
         nth_error (bullets s) (S i) = Some HYPHEN
         /\ nth_error (bullets s) (S (S i)) = Some SP).
Proof.
  split; [|intros i; apply bullets_newline_bullet].
  destruct (str_contains SEPARATOR s) eqn:Hsep.
  - unfold _format_one_line_bullets. rewrite Hsep.
    destruct s as [|c s]; [discriminate Hsep|]. cbn [truthy negb]. cbv zeta.
    destruct (startswith (lstrip (bullets (c :: s))) BULLET) eqn:E; cbn [negb].
    + eexists. split; [reflexivity | split; [now left | exact E]].
    + eexists. split; [reflexivity | split; [now right|]].
      rewrite BULLET_eq. reflexivity.
  - unfold _format_one_line_bullets. rewrite Hsep.
    now destruct (negb (truthy (PStr s))).
Qed.

(** The second separator of "a - b - c" becomes a line feed before "- c". *)
Lemma format_bullets_lines_start_with_bullet_witness :
  nth_error (py "a - b - c") 5 = Some SP
  /\ nth_error (bullets (py "a - b - c")) 5 = Some LF
  /\ nth_error (bullets (py "a - b - c")) 6 = Some HYPHEN
  /\ nth_error (bullets (py "a - b - c")) 7 = Some SP.
Proof.
  split; [reflexivity | split; [reflexivity|]].
  apply (proj2 (format_bullets_lines_start_with_bullet (py "a - b - c")) 5);
    reflexivity.
Defined.

(* ================================================================== *)
(** ** What the removal of bold markers keeps *)
(* ================================================================== *)

Lemma remove_bold_non_star (s : pystr) :
  non_star (remove_bold s) = non_star s
  /\ exists k, length s = length (remove_bold s) + 2 * k.
Proof.
  induction s as [| s [IH [k Hk]] | c s Hc [IH [k Hk]]] using bold_scan_ind.
  - split; [reflexivity | now exists 0].
  - rewrite remove_bold_hit. split; [exact IH|].
    exists (S k). simpl. lia.
  - rewrite remove_bold_miss by exact Hc. split.
    + unfold non_star in *. cbn [filter]. now rewrite IH.
    + exists k. simpl. lia.
Qed.

(** Only asterisks are removed, and in pairs.  For every text, the result
    holds no "**", its characters other than asterisks are those of the
    input in the same order, and the number of characters removed is even. *)
Theorem remove_bold_markdown_removes_asterisk_pairs (s : pystr) :
  exists t k,
    _remove_bold_markdown (PStr s) = PStr t
    /\ str_contains BOLD t = false
    /\ non_star t = non_star s
    /\ length s = length t + 2 * k.
Proof.
  destruct (remove_bold_non_star s) as [Hns [k Hk]].
  exists (remove_bold s), k. split; [|split; [apply remove_bold_clean | now split]].
  destruct s; reflexivity.
Qed.

Lemma remove_bold_stars (n : nat) (rest : pystr) :
  startswith rest [STAR] = false ->
  remove_bold (repeat STAR n ++ rest) = repeat STAR (n mod 2) ++ remove_bold rest.
Proof.
  intros Hrest.
  assert (H : remove_bold (repeat STAR n ++ rest)
              = repeat STAR (n mod 2) ++ remove_bold rest
              /\ remove_bold (repeat STAR (S n) ++ rest)
                 = repeat STAR (S n mod 2) ++ remove_bold rest).
  { induction n as [|n [IH1 IH2]].
    - split; [reflexivity|]. cbn [repeat app]. rewrite remove_bold_miss; [reflexivity|].
      rewrite BOLD_eq.
      change (startswith (STAR :: rest) [STAR; STAR])
        with (N.eqb STAR STAR && startswith rest [STAR]).
      rewrite Hrest. apply andb_false_r.
    - split; [exact IH2|]. cbn [repeat app]. rewrite remove_bold_hit.
      rewrite IH1. f_equal. f_equal.
      change (S (S n)) with (2 + n). rewrite Nat.add_comm.
      replace (n + 2) with (n + 1 * 2) by lia. now rewrite Nat.Div0.mod_add. }
  exact (proj1 H).
Qed.

(** A run of asterisks is reduced to its parity: in front of a text that
    does not begin with an asterisk, [n] asterisks leave none when [n] is
    even and one when it is odd, so the single asterisks of emphasis stay
    and "***" leaves one. *)
Theorem remove_bold_markdown_asterisk_run (n : nat) (rest : pystr) :
  startswith rest [STAR] = false ->
  exists t,
    _remove_bold_markdown (PStr rest) = PStr t
    /\ _remove_bold_markdown (PStr (repeat STAR n ++ rest))
       = PStr (repeat STAR (n mod 2) ++ t).
Proof.
  intros Hrest. exists (remove_bold rest). split.
  - destruct rest; reflexivity.
  - rewrite <- remove_bold_stars by exact Hrest.
    destruct (repeat STAR n ++ rest); reflexivity.
Qed.

(** Emphasis around a word stays; a bold and emphasised word keeps one
    asterisk on each side. *)
Lemma remove_bold_markdown_asterisk_run_witness :
  startswith (py "word* end") [STAR] = false
  /\ _remove_bold_markdown (PStr (repeat STAR 3 ++ py "word* end"))
     = PStr (py "*word* end").
Proof.
  split; [reflexivity|].
  destruct (remove_bold_markdown_asterisk_run 3 (py "word* end") eq_refl)
    as [t [Ht H]].
  rewrite H. injection Ht as <-. reflexivity.
Defined.

(* ================================================================== *)
(** ** The arguments of the formatter *)
(* ================================================================== *)

Lemma all_str_not_str (items : list pyval) :
  Exists (fun x => forall s, x <> PStr s) items -> all_str items = Raise TypeError.
Proof.
  induction 1 as [x items Hx | x items _ IH].
  - destruct x; try reflexivity. exfalso. now apply (Hx s).
  - destruct x; try reflexivity. simpl. now rewrite IH.
Qed.

Lemma finalize_text_ok (body : pyval) :
  truthy body = false \/ (exists s, body = PStr s) ->
  exists t,
    py_rstrip (_remove_bold_markdown (_format_one_line_bullets (py_or body empty_str)))
    = Ok t.
Proof.
  intros Hbody.
  assert (Hor : exists s, py_or body empty_str = PStr s).
  { destruct Hbody as [Hf | [s ->]].
    - unfold py_or. rewrite Hf. now exists [].
    - destruct s; [now exists [] | eexists; reflexivity]. }
  destruct Hor as [s ->].
  destruct (format_bullets_str s) as [f ->].
  destruct (remove_bold_markdown_str f) as [r [-> _]].
  now exists (rstrip r).
Qed.

(** The body must be a text or falsy, and the sources texts.  A truthy
    body of another type raises [AttributeError] (at [rstrip], before the
    sources are looked at); a falsy body of any type is formatted as the
    empty text; a list of sources with an entry that is not a text raises
    [TypeError] (at [join]). *)
Theorem finalize_argument_types :
  (forall body sources,
      truthy body = true -> (forall s, body <> PStr s) ->
      _finalize_output body sources = Raise AttributeError)
  /\ (forall body sources,
         truthy body = false ->
         _finalize_output body sources = _finalize_output (PStr []) sources)
  /\ (forall body items,
         truthy body = false \/ (exists s, body = PStr s) ->
         Exists (fun x => forall s, x <> PStr s) items ->
         _finalize_output body (PList items) = Raise TypeError).
Proof.
  split; [|split].
  - intros body sources Ht Hns. unfold _finalize_output, py_or. rewrite Ht.
    destruct body; try reflexivity; try discriminate Ht.
    exfalso. now apply (Hns s).
  - intros body sources Hf. unfold _finalize_output, py_or. now rewrite Hf.
  - intros body items Hbody Hex. unfold _finalize_output.
    destruct (finalize_text_ok Hbody) as [t ->]. cbn [bind].
    assert (Htr : truthy (PList items) = true) by (destruct Hex; reflexivity).
    rewrite Htr. unfold py_join. cbn [py_iter bind].
    now rewrite (all_str_not_str Hex).
Qed.

(** A number as the body, and a number among the sources. *)
Lemma finalize_argument_types_witness :
  _finalize_output (PInt 5) (PList []) = Raise AttributeError
  /\ _finalize_output (str "x") (PList [str "a.pdf"; PInt 5]) = Raise TypeError.
Proof.
  split.
  - apply (proj1 finalize_argument_types (PInt 5) (PList []));
      [reflexivity | discriminate].
  - apply (proj2 (proj2 finalize_argument_types) (str "x") [str "a.pdf"; PInt 5]).
    + right. now exists (py "x").
    + apply Exists_cons_tl, Exists_cons_hd. discriminate.
Defined.

Lemma blank_no_separator (s : pystr) :
  forallb is_space s = true -> str_contains SEPARATOR s = false.
Proof.
  rewrite SEPARATOR_eq. induction s as [|c s IH]; [reflexivity|].
  cbn [forallb]. intros H. apply andb_true_iff in H as [Hc Hs].
  cbn [str_contains]. rewrite (IH Hs), orb_false_r.
  destruct s as [|d s]; [apply andb_false_r|].
  cbn [forallb] in Hs. apply andb_true_iff in Hs as [Hd _].
  change (startswith (c :: d :: s) [SP; HYPHEN; SP])
    with (N.eqb SP c && (N.eqb HYPHEN d && startswith s [SP])).
  destruct (N.eqb HYPHEN d) eqn:E; [|apply andb_false_r].
  apply N.eqb_eq in E. subst d. discriminate Hd.
Qed.

Lemma blank_no_bold (s : pystr) :
  forallb is_space s = true -> str_contains BOLD s = false.
Proof.
  rewrite BOLD_eq. induction s as [|c s IH]; [reflexivity|].
  cbn [forallb]. intros H. apply andb_true_iff in H as [Hc Hs].
  cbn [str_contains]. rewrite (IH Hs), orb_false_r.
  change (startswith (c :: s) [STAR; STAR])
    with (N.eqb STAR c && startswith s [STAR]).
  destruct (N.eqb STAR c) eqn:E; [|reflexivity].
  apply N.eqb_eq in E. subst c. discriminate Hc.
Qed.

Lemma rstrip_blank (s : pystr) : forallb is_space s = true -> rstrip s = [].
Proof.
  induction s as [|c s IH]; [reflexivity|].
  cbn [forallb]. intros H. apply andb_true_iff in H as [Hc Hs].
  simpl. now rewrite (IH Hs), Hc.
Qed.

(** A body made of white space only is formatted as the empty body,
    whatever the sources: alone it gives the line feed. *)
Theorem finalize_blank_body (body : pystr) (sources : pyval) :
  forallb is_space body = true ->
  _finalize_output (PStr body) sources = _finalize_output (PStr []) sources.
Proof.
  intros Hb. destruct body as [|c body]; [reflexivity|].
  unfold _finalize_output.
  assert (Hfmt : _format_one_line_bullets (py_or (PStr (c :: body)) empty_str)
                 = PStr (c :: body)).
  { unfold py_or, _format_one_line_bullets. cbn [truthy negb].
    now rewrite (blank_no_separator _ Hb). }
  rewrite Hfmt. cbn [_remove_bold_markdown truthy negb].
  unfold remove_bold, str_replace. rewrite BOLD_eq.
  rewrite replace_scan_absent
    by (rewrite <- BOLD_eq; now apply blank_no_bold).
  cbn [py_rstrip]. now rewrite (rstrip_blank _ Hb).
Qed.

Lemma finalize_blank_body_witness :
  forallb is_space [SP; 9%N; LF] = true
  /\ _finalize_output (PStr [SP; 9%N; LF]) (PList []) = Ok (PStr [LF]).
Proof.
  split; [reflexivity|].
  rewrite (finalize_blank_body [SP; 9%N; LF] (PList []) eq_refl). reflexivity.
Defined.

(* ================================================================== *)
(** ** Responses without citations *)
(* ================================================================== *)

Lemma py_get_value_at (entries : list (pyval * pyval)) (key : pystr) (d : pyval) :
  py_get (py_or (PDict entries) empty_dict) key d = Ok (value_at entries key d).
Proof. destruct entries; reflexivity. Qed.

(** Both extractors return the empty list when nothing can be traversed. *)
Lemma extract_nothing (rag_response : pyval) :
  (refs <- retrieved_references rag_response ;; py_iter refs) = Ok []
  \/ (exists e, (refs <- retrieved_references rag_response ;; py_iter refs) = Raise e) ->
  _extract_document_titles_from_citations rag_response = Ok []
  /\ _extract_pdf_filenames_from_citations rag_response = Ok [].
Proof.
  intros H.
  unfold _extract_document_titles_from_citations,
    _extract_pdf_filenames_from_citations, collect_titles, collect_filenames.
  destruct H as [-> | [e ->]]; split; reflexivity.
Qed.

(** A response without usable citations gives the empty list, and no
    exception: a response that is not a [dict] (falsy or not), a [dict]
    without the key "citations", and a [dict] whose "citations" is neither
    a [dict] nor a [list]. *)
Theorem extractors_without_citations (rag_response : pyval) :
  (forall d, rag_response <> PDict d)
  \/ (exists d, rag_response = PDict d
                /\ match dict_find d (py "citations") with
                   | Some (PDict _) | Some (PList _) => False
                   | _ => True
                   end) ->
  _extract_document_titles_from_citations rag_response = Ok []
  /\ _extract_pdf_filenames_from_citations rag_response = Ok [].
Proof.
  intros H. apply extract_nothing.
  destruct H as [Hnd | [d [-> Hc]]].
  - destruct rag_response as [| b | n | s | l | d].
    + now left.
    + destruct b; [right; eexists; reflexivity | now left].
    + unfold retrieved_references, py_or. cbn [truthy].
      destruct (Z.eqb n 0); [now left | right; eexists; reflexivity].
    + destruct s; [now left | right; eexists; reflexivity].
    + destruct l; [now left | right; eexists; reflexivity].
    + exfalso. now apply (Hnd d).
  - unfold retrieved_references. rewrite py_get_value_at. cbn [bind].
    unfold value_at. destruct (dict_find d (py "citations")) as [c|]; [|now left].
    destruct c; try contradiction; now left.
Qed.

(** A list as the response, and citations that are a text. *)
Lemma extractors_without_citations_witness :
  _extract_pdf_filenames_from_citations (PList [scenario_B_reference]) = Ok []
  /\ _extract_document_titles_from_citations (response (str "none")) = Ok [].
Proof.
  split.
  - apply (@extractors_without_citations (PList [scenario_B_reference])).
    left. discriminate.
  - apply (@extractors_without_citations (response (str "none"))).
    right. eexists. split; [reflexivity | exact I].
Defined.

(* ================================================================== *)
(** ** Where a title comes from *)
(* ================================================================== *)

Lemma title_of_reference_unfold (entries md : list (pyval * pyval)) :
  py_or (value_at entries (py "metadata") empty_dict) empty_dict = PDict md ->
  title_of_reference (PDict entries)
  = (let t1 := value_at md TITLE_KEY PNone in
     let title := if truthy t1 then t1 else value_at md TITLE_KEY_ALT PNone in
     if truthy title then Ok title
     else
       uri_or_url <- location_candidate (PDict entries) ;;
       if truthy uri_or_url then Ok (name_from_location uri_or_url) else Ok title).
Proof.
  intros Hmd. unfold title_of_reference.
  rewrite py_get_value_at. cbn [bind]. cbv zeta. rewrite Hmd.
  change (py_get (PDict md) (py "x-amz-bedrock-kb-document-title") PNone)
    with (Ok (value_at md TITLE_KEY PNone)).
  change (py_get (PDict md) (py "x-amzn-bedrock-kb-doc-title") PNone)
    with (Ok (value_at md TITLE_KEY_ALT PNone)).
  cbn [bind]. now destruct (truthy (value_at md TITLE_KEY PNone)).
Qed.

(** The title of a reference is, in this order: the value of the first
    title key of its metadata when it is truthy; else the value of the
    second title key when it is truthy; else the name taken from its
    location, the final path segment cut before "?".  The location is not
    looked at while the metadata gives a title. *)
Theorem title_preference (entries md : list (pyval * pyval)) :
  py_or (value_at entries (py "metadata") empty_dict) empty_dict = PDict md ->
  (truthy (value_at md TITLE_KEY PNone) = true ->
   title_of_reference (PDict entries) = Ok (value_at md TITLE_KEY PNone))
  /\ (truthy (value_at md TITLE_KEY PNone) = false ->
      truthy (value_at md TITLE_KEY_ALT PNone) = true ->
      title_of_reference (PDict entries) = Ok (value_at md TITLE_KEY_ALT PNone))
  /\ (truthy (value_at md TITLE_KEY PNone) = false ->
      truthy (value_at md TITLE_KEY_ALT PNone) = false ->
      forall u,
        location_candidate (PDict entries) = Ok (PStr u) -> u <> [] ->
        title_of_reference (PDict entries) = Ok (PStr (before_qmark (basename u)))).
Proof.
  intros Hmd. rewrite (title_of_reference_unfold _ Hmd). cbv zeta.
  split; [|split].
  - intros H1. now rewrite H1, H1.
  - intros H1 H2. now rewrite H1, H2.
  - intros H1 H2 u Hloc Hu. rewrite H1, H2, Hloc. cbn [bind].
    destruct u; [congruence | reflexivity].
Qed.

(** A reference with both a title in its metadata and a storage URI: the
    title is the one of the metadata. *)
Lemma title_preference_witness :
  title_of_reference
    (PDict [(str "location", dict1 "s3Location" (dict1 "uri" (str "s3://kb/file.pdf")));
            (str "metadata", dict1 "x-amzn-bedrock-kb-doc-title" (str "Title"))])
  = Ok (str "Title").
Proof.
  apply (proj1 (proj2
    (@title_preference
       [(str "location", dict1 "s3Location" (dict1 "uri" (str "s3://kb/file.pdf")));
        (str "metadata", dict1 "x-amzn-bedrock-kb-doc-title" (str "Title"))]
       [(str "x-amzn-bedrock-kb-doc-title", str "Title")] eq_refl)));
    reflexivity.
Defined.



(* ================================================================== *)
(** ** More references, more entries *)
(* ================================================================== *)

Lemma titles_loop_extends (refs titles : list pyval) :
  exists more, fst (titles_loop refs titles) = titles ++ more.
Proof.
  revert titles. induction refs as [|ref refs IH]; intros titles.
  - exists []. simpl. now rewrite app_nil_r.
  - simpl. destruct (title_of_reference ref) as [t|e].
    + destruct (truthy t).
      * destruct (IH (titles ++ [t])) as [more ->].
        exists (t :: more). now rewrite <- app_assoc.
      * apply IH.
    + exists []. simpl. now rewrite app_nil_r.
Qed.

Lemma filenames_loop_extends (refs filenames : list pyval) :
  exists more, fst (filenames_loop refs filenames) = filenames ++ more.
Proof.
  revert filenames. induction refs as [|ref refs IH]; intros filenames.
  - exists []. simpl. now rewrite app_nil_r.
  - simpl. destruct (filename_turn ref) as [[name keep]|e].
    + destruct keep.
      * destruct (IH (filenames ++ [name])) as [more ->].
        exists (name :: more). now rewrite <- app_assoc.
      * apply IH.
    + exists []. simpl. now rewrite app_nil_r.
Qed.

Lemma titles_loop_app (a b titles : list pyval) :
  exists more,
    fst (titles_loop (a ++ b) titles) = fst (titles_loop a titles) ++ more.
Proof.
  revert titles. induction a as [|ref a IH]; intros titles.
  - simpl. apply titles_loop_extends.
  - simpl. destruct (title_of_reference ref) as [t|e]; [apply IH|].
    exists []. simpl. now rewrite app_nil_r.
Qed.

Lemma filenames_loop_app (a b filenames : list pyval) :
  exists more,
    fst (filenames_loop (a ++ b) filenames)
    = fst (filenames_loop a filenames) ++ more.
Proof.
  revert filenames. induction a as [|ref a IH]; intros filenames.
  - simpl. apply filenames_loop_extends.
  - simpl. destruct (filename_turn ref) as [[name keep]|e]; [apply IH|].
    exists []. simpl. now rewrite app_nil_r.
Qed.

Lemma dedup_loop_extends (xs : list pyval) (seen : list hkey) (out res : list pyval) :
  dedup_loop xs seen out = Ok res -> exists more, res = out ++ more.
Proof.
  revert seen out. induction xs as [|x xs IH]; intros seen out H.
  - simpl in H. injection H as <-. exists []. now rewrite app_nil_r.
  - simpl in H. destruct (hash_key x) as [k|]; [|discriminate].
    destruct (seen_mem k seen).
    + now apply IH in H.
    + apply IH in H as [more ->]. exists (x :: more). now rewrite <- app_assoc.
Qed.

Lemma dedup_loop_app (xs ys : list pyval) (seen : list hkey) (out res : list pyval) :
  dedup_loop (xs ++ ys) seen out = Ok res ->
  exists seen' mid,
    dedup_loop xs seen out = Ok mid /\ dedup_loop ys seen' mid = Ok res.
Proof.
  revert seen out. induction xs as [|x xs IH]; intros seen out H.
  - exists seen, out. now split.
  - simpl in *. destruct (hash_key x) as [k|]; [|discriminate].
    destruct (seen_mem k seen); now apply IH in H.
Qed.

Lemma dedup_app (xs ys res : list pyval) :
  dedup (xs ++ ys) = Ok res ->
  exists found more, dedup xs = Ok found /\ res = found ++ more.
Proof.
  intros H. apply dedup_loop_app in H as [seen' [mid [H1 H2]]].
  apply dedup_loop_extends in H2 as [more ->]. now exists mid, more.
Qed.

Lemma map_PStr_inj (a b : list pystr) : map PStr a = map PStr b -> a = b.
Proof.
  revert b. induction a as [|x a IH]; intros [|y b] H; try discriminate; [reflexivity|].
  simpl in H. injection H as -> H. f_equal. now apply IH.
Qed.

(** References added at the end never remove or reorder what was found: the
    result for a list of references begins with the result for any of its
    prefixes. *)
Theorem extraction_grows_with_references :
  (forall a b titles,
      _extract_document_titles_from_citations (mapping_shape (a ++ b)) = Ok titles ->
      exists found more,
        _extract_document_titles_from_citations (mapping_shape a) = Ok found
        /\ titles = found ++ more)
  /\ (forall a b,
         exists found more,
           _extract_pdf_filenames_from_citations (mapping_shape a)
           = Ok (map PStr found)
           /\ _extract_pdf_filenames_from_citations (mapping_shape (a ++ b))
              = Ok (map PStr (found ++ more))).
Proof.
  split.
  - intros a b titles. rewrite !extract_titles_unfold. unfold collect_titles.
    rewrite !retrieved_references_mapping. cbn [bind py_iter].
    destruct (titles_loop_app a b []) as [more ->]. apply dedup_app.
  - intros a b.
    destruct (extract_pdf_total (mapping_shape a)) as [found [Ha _]].
    destruct (extract_pdf_total (mapping_shape (a ++ b))) as [names [Hab _]].
    pose proof Ha as Ha'. pose proof Hab as Hab'.
    rewrite extract_pdf_unfold in Ha', Hab'. unfold collect_filenames in Ha', Hab'.
    rewrite retrieved_references_mapping in Ha', Hab'.
    cbn [bind py_iter] in Ha', Hab'.
    destruct (filenames_loop_app a b []) as [more Hmore].
    rewrite Hmore in Hab'. apply dedup_app in Hab' as [f [m [Hf Hm]]].
    rewrite Ha' in Hf. injection Hf as <-.
    apply map_eq_app in Hm as [l1 [l2 [-> [H1 _]]]].
    apply map_PStr_inj in H1. subst l1.
    exists found, l2. now split.
Qed.

Lemma extraction_grows_with_references_witness :
  exists found more,
    _extract_document_titles_from_citations
      (mapping_shape [dict1 "metadata" (dict1 "x-amz-bedrock-kb-document-title" (str "A"))])
    = Ok found
    /\ [str "A"; str "Report.PDF"] = found ++ more.
Proof.
  apply (proj1 extraction_grows_with_references
           [dict1 "metadata" (dict1 "x-amz-bedrock-kb-document-title" (str "A"))]
           [scenario_B_reference]).
  reflexivity.
Defined.

(* ================================================================== *)
(** ** Which file names are returned *)
(* ================================================================== *)

Lemma filename_turn_kept (ref : pyval) (n : pystr) :
  filename_turn ref = Ok (PStr n, true)
  <-> pdf_name_of_reference ref = Ok (PStr n)
      /\ endswith (str_lower n) (py ".pdf") = true.
Proof.
  unfold filename_turn. split.
  - destruct (pdf_name_of_reference ref) as [name|e]; [|discriminate].
    cbn [bind]. destruct (is_pdf_name name) as [keep|e] eqn:Hk; [|discriminate].
    cbn [bind]. intros H. injection H as -> ->.
    apply is_pdf_name_true in Hk as [s [E Hs]]. injection E as <-. now split.
  - intros [-> Hn]. cbn [bind]. unfold is_pdf_name.
    destruct n as [|c n]; [discriminate Hn|].
    cbn [truthy lower_endswith_pdf bind]. now rewrite Hn.
Qed.

Lemma filenames_loop_sound (refs filenames : list pyval) (x : pyval) :
  In x (fst (filenames_loop refs filenames)) ->
  In x filenames \/ exists ref, In ref refs /\ filename_turn ref = Ok (x, true).
Proof.
  revert filenames. induction refs as [|ref refs IH]; intros filenames H.
  - now left.
  - simpl in H. destruct (filename_turn ref) as [[name keep]|e] eqn:Ht; [|now left].
    apply IH in H as [H | [r [Hr Hx]]].
    + destruct keep; [|now left].
      apply in_app_or in H as [H | [<- | []]]; [now left|].
      right. exists ref. split; [now left | exact Ht].
    + right. exists r. split; [now right | exact Hx].
Qed.

Lemma filenames_loop_complete (before after : list pyval) (ref x : pyval)
      (filenames : list pyval) :
  Forall (fun r => exists turn, filename_turn r = Ok turn) before ->
  filename_turn ref = Ok (x, true) ->
  In x (fst (filenames_loop (before ++ ref :: after) filenames)).
Proof.
  intros Hok Hx. revert filenames.
  induction Hok as [|r before [[name keep] Hr] _ IH]; intros filenames.
  - simpl. rewrite Hx.
    destruct (filenames_loop_extends after (filenames ++ [x])) as [more ->].
    apply in_or_app. left. apply in_or_app. right. now left.
  - simpl. rewrite Hr. apply IH.
Qed.

(** The file names returned are those of the references.  Every name
    returned is the name of one of the references and ends with ".pdf"; and
    the name of a reference that ends with ".pdf" is returned, provided no
    reference before it makes its turn raise. *)
Theorem pdf_names_sound_and_complete :
  (forall refs names n,
      _extract_pdf_filenames_from_citations (mapping_shape refs) = Ok (map PStr names) ->
      In n names ->
      exists ref,
        In ref refs
        /\ pdf_name_of_reference ref = Ok (PStr n)
        /\ endswith (str_lower n) (py ".pdf") = true)
  /\ (forall before ref after n,
         Forall (fun r => exists turn, filename_turn r = Ok turn) before ->
         pdf_name_of_reference ref = Ok (PStr n) ->
         endswith (str_lower n) (py ".pdf") = true ->
         exists names,
           _extract_pdf_filenames_from_citations
             (mapping_shape (before ++ ref :: after)) = Ok (map PStr names)
           /\ In n names).
Proof.
  split.
  - intros refs names n H Hn. rewrite extract_pdf_unfold in H.
    apply dedup_stable, stable_dedup_incl in H.
    assert (Hin : In (PStr n) (fst (collect_filenames (mapping_shape refs))))
      by (apply H; now apply in_map).
    unfold collect_filenames in Hin. rewrite retrieved_references_mapping in Hin.
    cbn [bind py_iter] in Hin.
    apply filenames_loop_sound in Hin as [[] | [ref [Hr Ht]]].
    exists ref. split; [exact Hr | now apply filename_turn_kept].
  - intros before ref after n Hok Hname Hpdf.
    destruct (extract_pdf_total (mapping_shape (before ++ ref :: after)))
      as [names [H _]].
    exists names. split; [exact H|].
    rewrite extract_pdf_unfold in H. apply dedup_stable in H.
    destruct H as [_ [Hall _]].
    assert (Hin : In (PStr n)
                     (fst (collect_filenames (mapping_shape (before ++ ref :: after))))).
    { unfold collect_filenames. rewrite retrieved_references_mapping.
      cbn [bind py_iter]. apply filenames_loop_complete; [exact Hok|].
      now apply filename_turn_kept. }
    destruct (Hall _ Hin) as [y [Hy Hsame]].
    apply in_map_iff in Hy as [m [<- Hm]].
    unfold same_value in Hsame. simpl in Hsame. injection Hsame as ->. exact Hm.
Qed.

(** The reference of Scenario B after a reference without a name. *)
Lemma pdf_names_sound_and_complete_witness :
  exists names,
    _extract_pdf_filenames_from_citations
      (mapping_shape ([PDict []] ++ scenario_B_reference :: [])) = Ok (map PStr names)
    /\ In (py "Report.PDF") names.
Proof.
  apply (proj2 pdf_names_sound_and_complete [PDict []] scenario_B_reference []
               (py "Report.PDF")).
  - constructor; [eexists; reflexivity | constructor].
  - reflexivity.
  - reflexivity.
Defined.

(* ================================================================== *)
(** ** The text of the model's answer *)
(* ================================================================== *)

Lemma dict1_find (k : string) (v : pyval) : dict_find [(str k, v)] (py k) = Some v.
Proof. simpl. now rewrite str_eqb_refl. Qed.

Lemma py_subscript_dict1 (k : string) (v : pyval) :
  py_subscript (dict1 k v) (py k) = Return v.
Proof. unfold dict1, py_subscript. now rewrite dict1_find. Qed.

Lemma str_join_empty (texts : list pystr) : str_join [] texts = concat texts.
Proof.
  induction texts as [|a rest IH]; [reflexivity|].
  destruct rest as [|b rest].
  - simpl. now rewrite app_nil_r.
  - change (str_join [] (a :: b :: rest)) with (a ++ [] ++ str_join [] (b :: rest)).
    now rewrite IH.
Qed.

Lemma generated_text_of_content (blocks : list pyval) :
  generated_text_of (converse_response blocks)
  = match (texts <- block_texts blocks ;; strs <- all_str texts ;;
           Ok (str_join [] strs)) with
    | Ok generated_text => generated_text
    | Raise _ => []
    end.
Proof.
  unfold generated_text_of, converse_response.
  rewrite py_subscript_dict1. cbn [and_then].
  rewrite py_subscript_dict1. cbn [and_then].
  rewrite py_subscript_dict1. cbn [and_then py_iter bind].
  destruct (block_texts blocks) as [texts|e]; [|reflexivity].
  cbn [bind]. destruct (all_str texts); reflexivity.
Qed.

Lemma block_texts_values (blocks : list pyval) (texts : list pystr) :
  Forall2 (fun block t => exists d, block = PDict d
                                    /\ value_at d (py "text") empty_str = PStr t)
          blocks texts ->
  block_texts blocks = Ok (map PStr texts).
Proof.
  induction 1 as [|block t blocks texts [d [-> Hd]] _ IH]; [reflexivity|].
  cbn [block_texts py_get]. fold (value_at d (py "text") empty_str).
  rewrite Hd. cbn [bind]. now rewrite IH.
Qed.

Lemma block_texts_not_dict (blocks : list pyval) :
  Exists (fun block => forall d, block <> PDict d) blocks ->
  block_texts blocks = Raise AttributeError.
Proof.
  induction 1 as [block blocks H | block blocks _ IH].
  - destruct block; try reflexivity. exfalso. now apply (H entries).
  - destruct block; try reflexivity.
    cbn [block_texts py_get bind]. now rewrite IH.
Qed.

(** The text of an answer is the concatenation of the texts of its content
    blocks, a block without "text" counting as the empty text; when one of
    the blocks is not a [dict], or the response lacks "output", the answer
    has no text at all. *)
Theorem generated_text_of_blocks :
  (forall blocks texts,
      Forall2 (fun block t => exists d, block = PDict d
                                        /\ value_at d (py "text") empty_str = PStr t)
              blocks texts ->
      generated_text_of (converse_response blocks) = concat texts)
  /\ (forall blocks,
         Exists (fun block => forall d, block <> PDict d) blocks ->
         generated_text_of (converse_response blocks) = [])
  /\ (forall d,
         dict_find d (py "output") = None -> generated_text_of (PDict d) = []).
Proof.
  split; [|split].
  - intros blocks texts H. rewrite generated_text_of_content.
    rewrite (block_texts_values H). cbn [bind].
    rewrite all_str_map. cbn [bind]. apply str_join_empty.
  - intros blocks H. rewrite generated_text_of_content.
    now rewrite (block_texts_not_dict H).
  - intros d H. unfold generated_text_of. cbn [py_subscript]. now rewrite H.
Qed.

(** Two blocks of text around a block without text. *)
Lemma generated_text_of_blocks_witness :
  generated_text_of
    (converse_response [text_block (py "Take "); dict1 "image" PNone; text_block (py "care")])
  = py "Take care".
Proof.
  apply (proj1 generated_text_of_blocks
           [text_block (py "Take "); dict1 "image" PNone; text_block (py "care")]
           [py "Take "; []; py "care"]).
  repeat constructor; eexists; split; reflexivity.
Defined.

(* ================================================================== *)
(** ** The endpoints *)
(* ================================================================== *)

Lemma finalize_ok_text (body sources v : pyval) :
  _finalize_output body sources = Ok v -> exists out, v = PStr out.
Proof.
  unfold _finalize_output.
  destruct (py_rstrip _) as [t|e]; [|discriminate]. cbn [bind].
  destruct (truthy sources).
  - destruct (py_join (py ", ") sources) as [j|e]; [|discriminate].
    cbn [bind]. intros H. injection H as <-. eexists; reflexivity.
  - intros H. injection H as <-. eexists; reflexivity.
Qed.

Lemma finalize_ok_body (body sources v : pyval) :
  _finalize_output body sources = Ok v ->
  truthy body = false \/ (exists s, body = PStr s).
Proof.
  intros H. destruct (truthy body) eqn:Ht; [|now left]. right.
  unfold _finalize_output, py_or in H. rewrite Ht in H.
  destruct body; try discriminate H. eexists; reflexivity.
Qed.

Lemma finalize_falsy_body (body sources : pyval) :
  truthy body = false ->
  _finalize_output body sources = _finalize_output (PStr []) sources.
Proof. intros Hf. unfold _finalize_output, py_or. now rewrite Hf. Qed.

Lemma finalize_none_sources (body : pyval) :
  _finalize_output body PNone = _finalize_output body (PList []).
Proof. reflexivity. Qed.

(** A formatted answer without sources. *)
Lemma finalize_without_sources (body : pystr) :
  exists out,
    _finalize_output (PStr body) PNone = Ok (PStr out)
    /\ endswith out [LF] = true
    /\ endswith out [LF; LF] = false
    /\ str_contains BOLD out = false.
Proof.
  rewrite finalize_none_sources.
  destruct (finalize_newlines body []) as [out [Hout [H1 H2]]].
  exists out. split; [exact Hout | split; [exact H1 | split; [exact H2|]]].
  destruct (finalize_shape (body := PStr body) []
              (or_intror (ex_intro _ body eq_refl))) as [t [Hclean [_ Ht]]].
  simpl map in Hout, Ht. rewrite Hout in Ht. injection Ht as ->.
  rewrite contains_bold_app by reflexivity. now rewrite Hclean.
Qed.

(** The names of the citations: texts, without duplicates, ending with
    ".pdf". *)
Lemma extract_pdf_names (rag_response : pyval) :
  exists names,
    _extract_pdf_filenames_from_citations rag_response = Ok (map PStr names)
    /\ NoDup names
    /\ Forall ends_with_pdf_ci names.
Proof.
  destruct (extract_pdf_total rag_response) as [names [H Hpdf]].
  exists names. split; [exact H | split].
  - rewrite extract_pdf_unfold in H. apply dedup_stable in H.
    destruct H as [Hnd _]. rewrite map_map in Hnd.
    now apply NoDup_map_inv in Hnd.
  - eapply Forall_impl; [|exact Hpdf]. intros n. apply lower_endswith_pdf_ci.
Qed.

(** A formatted answer with the names of citations. *)
Lemma finalize_with_names (body : pyval) (names : list pystr) (v : pyval) :
  Forall ends_with_pdf_ci names ->
  _finalize_output body (PList (map PStr names)) = Ok v ->
  exists out,
    v = PStr out /\ endswith out [LF] = true /\ endswith out [LF; LF] = false.
Proof.
  intros Hpdf H.
  assert (Hs : exists s, _finalize_output (PStr s) (PList (map PStr names)) = Ok v).
  { destruct (@finalize_ok_body _ _ _ H) as [Hf | [s ->]].
    - exists []. now rewrite <- (@finalize_falsy_body body _ Hf).
    - now exists s. }
  destruct Hs as [s Hs].
  destruct (finalize_newlines s names) as [out [Hout [H1 H2]]].
  rewrite Hout in Hs. injection Hs as <-.
  exists out. split; [reflexivity | split; [exact H1|]].
  rewrite H2. destruct names as [|n names]; [reflexivity|].
  apply pdf_name_no_newline.
  apply (Forall_last (P := ends_with_pdf_ci)); [exact Hpdf | discriminate].
Qed.

Lemma handle_fixed_cases (e : raised) :
  handle_fixed e = HTTP_500 (py "AWS Client error occurred.")
  \/ handle_fixed e = HTTP_500 (py "AWS BotoCore error occurred.")
  \/ handle_fixed e = HTTP_500 (py "An unexpected error occurred.").
Proof. destruct e; simpl; auto. Qed.

Section EndpointProperties.

Variable MODEL_ID : pyval.
Variable KNOWLEDGE_BASE_ID : pyval.
Variable MODEL_ARN : pyval.
Variable converse : pyval -> pystr -> pystr -> outcome pyval.
Variable retrieve_and_generate : pystr -> pyval -> pyval -> outcome pyval.
Variable exception_text : raised -> pystr.

Local Abbreviation invoke := (invoke_model MODEL_ID converse exception_text).
Local Abbreviation query :=
  (query_with_knowledge_base KNOWLEDGE_BASE_ID MODEL_ARN retrieve_and_generate).
Local Abbreviation chat :=
  (chat_endpoint MODEL_ID KNOWLEDGE_BASE_ID MODEL_ARN converse
                 retrieve_and_generate exception_text).
Local Abbreviation model_answer := (converse_answer MODEL_ID converse).
Local Abbreviation kb_answer :=
  (knowledge_base_answer KNOWLEDGE_BASE_ID MODEL_ARN retrieve_and_generate).

Lemma throw_detailed_500 (e : raised) :
  exists detail,
    try_with (handle_detailed exception_text) (@Throw pyval e)
    = Throw (HTTPException 500 detail).
Proof. destruct e; eexists; reflexivity. Qed.

Lemma model_answer_text (text : pystr) (v : pyval) :
  model_answer text = Return v -> exists out, v = PStr out.
Proof.
  unfold converse_answer.
  destruct (converse MODEL_ID SYSTEM_PROMPT text) as [response|e]; [|discriminate].
  cbn [and_then]. cbv zeta.
  destruct (negb (truthy (PStr (generated_text_of response)))); [discriminate|].
  destruct (_finalize_output _ _) as [w|e] eqn:E; [|discriminate].
  intros H. injection H as <-. now apply finalize_ok_text in E.
Qed.

Lemma kb_answer_text (text : pystr) (v : pyval) :
  kb_answer text = Return v -> exists out, v = PStr out.
Proof.
  unfold knowledge_base_answer.
  destruct (retrieve_and_generate text KNOWLEDGE_BASE_ID MODEL_ARN)
    as [response|e]; [|discriminate].
  cbn [and_then].
  destruct (py_subscript response (py "output")) as [output|e]; [|discriminate].
  cbn [and_then].
  destruct (py_subscript output (py "text")) as [body|e]; [|discriminate].
  cbn [and_then].
  destruct (_extract_pdf_filenames_from_citations response) as [pdfs|e];
    [|discriminate].
  cbn [of_result and_then].
  destruct (_finalize_output body (PList pdfs)) as [w|e] eqn:E; [|discriminate].
  intros H. injection H as <-. now apply finalize_ok_text in E.
Qed.

(** Whatever the clients do, an endpoint returns its answer, a text under
    "response" (with the "type" for [/chat]), or raises an [HTTPException]
    of status 500: no other exception leaves an endpoint. *)
Theorem endpoints_raise_only_http_500 (text : pystr) (use_knowledge_base : bool) :
  ((exists out, invoke text = Return (PDict [(str "response", PStr out)]))
   \/ (exists detail, invoke text = Throw (HTTPException 500 detail)))
  /\ ((exists out, query text = Return (PDict [(str "response", PStr out)]))
      \/ (exists detail, query text = Throw (HTTPException 500 detail)))
  /\ ((exists out kind,
          chat text use_knowledge_base
          = Return (PDict [(str "response", PStr out); (str "type", PStr kind)]))
      \/ (exists detail,
             chat text use_knowledge_base = Throw (HTTPException 500 detail))).
Proof.
  split; [|split].
  - unfold invoke_model. destruct (negb (truthy MODEL_ID)).
    + right. eexists. reflexivity.
    + destruct (model_answer text) as [v|e] eqn:E; cbn [and_then try_with].
      * left. apply model_answer_text in E as [out ->]. now exists out.
      * right. apply throw_detailed_500.
  - unfold query_with_knowledge_base.
    destruct (negb (truthy KNOWLEDGE_BASE_ID) || negb (truthy MODEL_ARN)).
    + right. eexists. reflexivity.
    + cbv zeta. destruct (kb_answer text) as [v|e] eqn:E; cbn [and_then try_with].
      * left. apply kb_answer_text in E as [out ->]. now exists out.
      * right. destruct (handle_fixed_cases e) as [-> | [-> | ->]];
          eexists; reflexivity.
  - unfold chat_endpoint. destruct use_knowledge_base.
    + destruct (negb (truthy KNOWLEDGE_BASE_ID) || negb (truthy MODEL_ARN)).
      * right. apply throw_detailed_500.
      * destruct (kb_answer text) as [v|e] eqn:E; cbn [and_then try_with].
        -- left. apply kb_answer_text in E as [out ->]. eexists _, _. reflexivity.
        -- right. apply throw_detailed_500.
    + destruct (negb (truthy MODEL_ID)).
      * right. apply throw_detailed_500.
      * destruct (model_answer text) as [v|e] eqn:E; cbn [and_then try_with].
        -- left. apply model_answer_text in E as [out ->]. eexists _, _. reflexivity.
        -- right. apply throw_detailed_500.
Qed.


(** [/bedrock/invoke] answers exactly when the model identifier is
    configured, the model returns and its answer has a text; the answer is
    that text formatted without sources: it ends with exactly one line feed
    and holds no "**". *)
Theorem invoke_model_answer (text : pystr) :
  (forall v,
      invoke text = Return v ->
      truthy MODEL_ID = true
      /\ exists response out,
           converse MODEL_ID SYSTEM_PROMPT text = Return response
           /\ generated_text_of response <> []
           /\ _finalize_output (PStr (generated_text_of response)) PNone
              = Ok (PStr out)
           /\ v = PDict [(str "response", PStr out)]
           /\ endswith out [LF] = true
           /\ endswith out [LF; LF] = false
           /\ str_contains BOLD out = false)
  /\ (forall response,
         truthy MODEL_ID = true ->
         converse MODEL_ID SYSTEM_PROMPT text = Return response ->
         generated_text_of response <> [] ->
         exists out, invoke text = Return (PDict [(str "response", PStr out)])).
Proof.
  split.
  - intros v. unfold invoke_model, converse_answer.
    destruct (truthy MODEL_ID); [|discriminate]. cbn [negb].
    destruct (converse MODEL_ID SYSTEM_PROMPT text) as [response|e]; [|discriminate].
    cbn [and_then]. cbv zeta.
    destruct (generated_text_of response) as [|c g] eqn:Hg; [discriminate|].
    cbn [truthy negb].
    destruct (finalize_without_sources (c :: g)) as [out [Hout [H1 [H2 H3]]]].
    rewrite Hout. cbn [of_result and_then try_with].
    intros H. injection H as <-. split; [reflexivity|].
    exists response, out. rewrite Hg. repeat split; try assumption. discriminate.
  - intros response Hid Hc Hg. unfold invoke_model, converse_answer.
    rewrite Hid, Hc. cbn [negb and_then]. cbv zeta.
    destruct (generated_text_of response) as [|c g]; [congruence|].
    cbn [truthy negb].
    destruct (finalize_without_sources (c :: g)) as [out [Hout _]].
    rewrite Hout. now exists out.
Qed.

(** When [/bedrock/query] answers, the knowledge base returned a response
    with a text under "output"; the answer is that text formatted with the
    file names of the citations, which are distinct and end with ".pdf", and
    it ends with exactly one line feed. *)
Theorem query_answer (text : pystr) (v : pyval) :
  query text = Return v ->
  exists response output body names out,
    retrieve_and_generate text KNOWLEDGE_BASE_ID MODEL_ARN = Return response
    /\ py_subscript response (py "output") = Return output
    /\ py_subscript output (py "text") = Return body
    /\ _extract_pdf_filenames_from_citations response = Ok (map PStr names)
    /\ NoDup names
    /\ Forall ends_with_pdf_ci names
    /\ _finalize_output body (PList (map PStr names)) = Ok (PStr out)
    /\ v = PDict [(str "response", PStr out)]
    /\ endswith out [LF] = true
    /\ endswith out [LF; LF] = false.
Proof.
  unfold query_with_knowledge_base, knowledge_base_answer.
  destruct (negb (truthy KNOWLEDGE_BASE_ID) || negb (truthy MODEL_ARN));
    [discriminate|]. cbv zeta.
  destruct (retrieve_and_generate text KNOWLEDGE_BASE_ID MODEL_ARN)
    as [response|e]; [|discriminate].
  cbn [and_then].
  destruct (py_subscript response (py "output")) as [output|e] eqn:Ho;
    [|discriminate].
  cbn [and_then].
  destruct (py_subscript output (py "text")) as [body|e] eqn:Hb; [|discriminate].
  cbn [and_then].
  destruct (extract_pdf_names response) as [names [Hn [Hnd Hpdf]]].
  rewrite Hn. cbn [of_result and_then].
  destruct (_finalize_output body (PList (map PStr names))) as [w|e] eqn:Hf;
    [|discriminate].
  cbn [of_result and_then try_with]. intros H. injection H as <-.
  destruct (@finalize_with_names _ _ _ Hpdf Hf) as [out [-> [H1 H2]]].
  exists response, output, body, names, out. repeat split; assumption.
Qed.

(** The details of the errors of [/bedrock/query] are four fixed texts: the
    missing configuration, a client error, a BotoCore error, and anything
    else (a response without "output" or "text", a body that is not a
    text).  None of them quotes the exception. *)
Theorem query_error_details (text : pystr) :
  (truthy KNOWLEDGE_BASE_ID = false \/ truthy MODEL_ARN = false ->
   query text = Throw (HTTPException 500 (py "Knowledge base configuration is missing.")))
  /\ (truthy KNOWLEDGE_BASE_ID = true -> truthy MODEL_ARN = true ->
      forall e,
        retrieve_and_generate text KNOWLEDGE_BASE_ID MODEL_ARN = Throw e ->
        query text = Throw (handle_fixed e))
  /\ (truthy KNOWLEDGE_BASE_ID = true -> truthy MODEL_ARN = true ->
      forall entries,
        retrieve_and_generate text KNOWLEDGE_BASE_ID MODEL_ARN = Return (PDict entries) ->
        dict_find entries (py "output") = None ->
        query text = Throw (HTTPException 500 (py "An unexpected error occurred.")))
  /\ (forall e,
         query text = Throw e ->
         exists detail,
           e = HTTPException 500 detail
           /\ In detail [py "Knowledge base configuration is missing.";
                         py "AWS Client error occurred.";
                         py "AWS BotoCore error occurred.";
                         py "An unexpected error occurred."]).
Proof.
  unfold query_with_knowledge_base. split; [|split; [|split]].
  - intros [H | H]; rewrite H; cbn [negb orb]; [reflexivity|].
    now rewrite orb_true_r.
  - intros H1 H2 e He. rewrite H1, H2. cbn [negb orb]. cbv zeta.
    unfold knowledge_base_answer. now rewrite He.
  - intros H1 H2 entries Hr Ho. rewrite H1, H2. cbn [negb orb]. cbv zeta.
    unfold knowledge_base_answer. rewrite Hr. cbn [and_then py_subscript].
    now rewrite Ho.
  - intros e.
    destruct (negb (truthy KNOWLEDGE_BASE_ID) || negb (truthy MODEL_ARN)).
    + intros H. injection H as <-. eexists. split; [reflexivity | now left].
    + cbv zeta. destruct (kb_answer text) as [v|e']; [discriminate|].
      cbn [and_then try_with]. intros H. injection H as <-.
      destruct (handle_fixed_cases e') as [-> | [-> | ->]];
        eexists; (split; [reflexivity|]); simpl; auto.
Qed.

(** Errors raised inside the [try] of [/bedrock/invoke] and [/chat] are
    caught by its last handler and raised again with the detail
    "Unexpected error: " followed by the text of the exception: so is the
    missing text of the model's answer, and so is, in [/chat] only, the
    missing configuration, which the two GET endpoints report as it is.  A
    client error is quoted after "AWS Client error: ". *)
Theorem errors_inside_try_are_rewrapped (text : pystr) :
  (truthy MODEL_ID = true ->
   forall response,
     converse MODEL_ID SYSTEM_PROMPT text = Return response ->
     generated_text_of response = [] ->
     invoke text
     = Throw (HTTPException 500
                (py "Unexpected error: "
                 ++ exception_text
                      (HTTPException 500 (py "Model did not return any content.")))))
  /\ (truthy MODEL_ID = false ->
      invoke text = Throw (HTTPException 500 (py "MODEL_ID is not configured."))
      /\ chat text false
         = Throw (HTTPException 500
                    (py "Unexpected error: "
                     ++ exception_text
                          (HTTPException 500 (py "MODEL_ID is not configured.")))))
  /\ (truthy KNOWLEDGE_BASE_ID = false \/ truthy MODEL_ARN = false ->
      chat text true
      = Throw (HTTPException 500
                 (py "Unexpected error: "
                  ++ exception_text
                       (HTTPException 500
                          (py "Knowledge base configuration is missing.")))))
  /\ (truthy MODEL_ID = true ->
      forall args,
        converse MODEL_ID SYSTEM_PROMPT text = Throw (ClientError args) ->
        invoke text
        = Throw (HTTPException 500
                   (py "AWS Client error: " ++ exception_text (ClientError args)))).
Proof.
  split; [|split; [|split]].
  - intros Hid response Hc Hg. unfold invoke_model, converse_answer.
    rewrite Hid, Hc. cbn [negb and_then]. cbv zeta. now rewrite Hg.
  - intros Hid. unfold invoke_model, chat_endpoint. now rewrite Hid.
  - intros H. unfold chat_endpoint.
    assert (Hc : negb (truthy KNOWLEDGE_BASE_ID) || negb (truthy MODEL_ARN) = true).
    { destruct H as [H | H]; rewrite H; [reflexivity | apply orb_true_r]. }
    now rewrite Hc.
  - intros Hid args Hc. unfold invoke_model, converse_answer.
    now rewrite Hid, Hc.
Qed.

(** [/chat] answers as the GET endpoint of the same kind does: with the
    knowledge base it returns the answer of [/bedrock/query] marked
    "knowledge_base", without it the answer of [/bedrock/invoke] marked
    "general", and it answers exactly when that endpoint does. *)
Theorem chat_agrees_with_get_endpoints (message : pystr) (answer : pyval) :
  (query message = Return (PDict [(str "response", answer)])
   <-> chat message true
       = Return (PDict [(str "response", answer); (str "type", str "knowledge_base")]))
  /\ (invoke message = Return (PDict [(str "response", answer)])
      <-> chat message false
          = Return (PDict [(str "response", answer); (str "type", str "general")])).
Proof.
  unfold query_with_knowledge_base, invoke_model, chat_endpoint. split.
  - destruct (negb (truthy KNOWLEDGE_BASE_ID) || negb (truthy MODEL_ARN)).
    + split; discriminate.
    + cbv zeta. destruct (kb_answer message) as [v|e]; cbn [and_then try_with].
      * split; intros H; injection H as ->; reflexivity.
      * split; discriminate.
  - destruct (negb (truthy MODEL_ID)).
    + split; discriminate.
    + destruct (model_answer message) as [v|e]; cbn [and_then try_with].
      * split; intros H; injection H as ->; reflexivity.
      * split; discriminate.
Qed.

End EndpointProperties.

(** A model that answers "Rest - drink **water**". *)
Lemma invoke_model_answer_witness :
  exists out,
    invoke_model (str "model") (answering_converse (py "Rest - drink **water**"))
                 no_text (py "What helps?")
    = Return (PDict [(str "response", PStr out)]).
Proof.
  apply (proj2 (@invoke_model_answer (str "model")
                  (answering_converse (py "Rest - drink **water**")) no_text
                  (py "What helps?"))
               (converse_response [text_block (py "Rest - drink **water**")]));
    [reflexivity | reflexivity | vm_compute; discriminate].
Defined.

(** A knowledge base that answers "Rest well" and cites Scenario B. *)
Lemma query_answer_witness :
  query_with_knowledge_base (str "kb") (str "arn")
    (answering_knowledge_base (py "Rest well")) (py "What helps?")
  = Return (PDict [(str "response",
                    PStr (py "Rest well" ++ PARAGRAPH_BREAK
                            ++ py "Sources: Report.PDF" ++ [LF]))])
  /\ exists names,
       _extract_pdf_filenames_from_citations (knowledge_base_response (py "Rest well"))
       = Ok (map PStr names)
       /\ NoDup names.
Proof.
  split; [reflexivity|].
  destruct (@query_answer (str "kb") (str "arn")
              (answering_knowledge_base (py "Rest well")) (py "What helps?") _ eq_refl)
    as [response [output [body [names [out [Hr [_ [_ [Hn [Hnd _]]]]]]]]]].
  injection Hr as <-. now exists names.
Defined.

(** No knowledge base configured. *)
Lemma query_error_details_witness :
  query_with_knowledge_base PNone (str "arn")
    (answering_knowledge_base (py "Rest well")) (py "What helps?")
  = Throw (HTTPException 500 (py "Knowledge base configuration is missing.")).
Proof.
  apply (proj1 (@query_error_details PNone (str "arn")
                  (answering_knowledge_base (py "Rest well")) (py "What helps?"))).
  left. reflexivity.
Defined.

(** A model whose answer has no text. *)
Lemma errors_inside_try_are_rewrapped_witness :
  invoke_model (str "model") (answering_converse []) no_text (py "What helps?")
  = Throw (HTTPException 500 (py "Unexpected error: ")).
Proof.
  exact (proj1 (@errors_inside_try_are_rewrapped (str "model") PNone PNone
                  (answering_converse [])
                  (failing_knowledge_base (KeyError [])) no_text
                  (py "What helps?"))
               eq_refl (converse_response [text_block []]) eq_refl eq_refl).
Defined.
